(** * GoLogger: a leveled logger (logger.go), embedded and verified

    The development follows logger.go top to bottom: levels and the two
    level tables, [iToA], the [logger] struct with its accessors, the
    header and line builders, the three emitters, [Clone], [New] and the
    package-level default instance.

    Conventions of the embedding.
    - Go's [int] is taken to be 64 bits wide (amd64, arm64); [int32] is the
      32-bit two's-complement type.  Both are carried by [Z]; narrowing
      conversions are written out ([int32]).
    - [string] and [[]byte] are byte sequences: [list ascii].
    - A [*logger] is a location in a heap of logger structs; an [io.Writer]
      is a named sink whose [Write] calls are recorded in a trace.
    - [os.Exit] and run-time panics are outcomes of a computation.
    - [sync.Mutex] and the atomic loads and stores are sequential here: one
      call runs at a time, so locking is the identity. *)

From Stdlib Require Import ZArith Ascii String.
From stdpp Require Import gmap strings list.

Local Open Scope Z_scope.

(** * The embedding *)

(** ** Bytes and strings *)

Abbreviation bytes := (list ascii).

(** A Go string literal. *)
Definition B (s : string) : bytes := list_ascii_of_string s.

Definition newline : ascii := "010"%char.
Definition esc : ascii := "027"%char.

(** The conversion [byte(x)] of an integer: the low eight bits. *)
Definition byte (x : Z) : ascii := ascii_of_N (Z.to_N (x mod 256)).

(** The conversion [int32(x)] of an [int]: the low 32 bits, signed. *)
Definition int32 (x : Z) : Z := (x + 2147483648) mod 4294967296 - 2147483648.

Definition is_int32 (x : Z) : Prop := -2147483648 <= x < 2147483648.

(** ** Levels and flags *)

Abbreviation Level := Z (only parsing).

Definition LevelQuiet : Level := 0.
Definition LevelFatal : Level := 1.
Definition LevelError : Level := 2.
Definition LevelWarn : Level := 3.
Definition LevelInfo : Level := 4.
Definition LevelDebug : Level := 5.
Definition LevelTrace : Level := 6.

Definition FlagColorMode : Z := Z.shiftl 1 0.

Definition levelPrefixes : gmap Z bytes :=
  list_to_map
    [ (LevelFatal, B "F"); (LevelError, B "E"); (LevelWarn, B "W");
      (LevelInfo, B "I"); (LevelDebug, B "D"); (LevelTrace, B "T") ].

Definition levelColors : gmap Z bytes :=
  list_to_map
    [ (LevelFatal, esc :: B "[31;1m"); (LevelError, esc :: B "[31m");
      (LevelWarn, esc :: B "[33;1m"); (LevelInfo, esc :: B "[32m");
      (LevelDebug, esc :: B "[34;1m"); (LevelTrace, esc :: B "[36m") ].

Definition colorReset : bytes := esc :: B "[0m".

(** ** iToA

    The local array [b] has 20 cells and is filled from the last cell
    backwards.  [digits] is the filled part [b[bp+1:]] and [free] the number
    [bp + 1] of cells not yet written, so a write [b[bp] = c] conses [c] onto
    [digits] and fails (index out of range) when [free] is zero.  [None] is
    that run-time panic. *)

(** [x--] on a 64-bit [int]: the least value wraps to the greatest. *)
Definition decrement (x : Z) : Z :=
  if x =? -9223372036854775808 then 9223372036854775807 else x - 1.

Fixpoint iToA_loop (free : nat) (digits : bytes) (i wid : Z) : option bytes :=
  if (10 <=? i) || (1 <? wid) then
    match free with
    | O => None
    | S free' =>
        let wid := decrement wid in
        let q := i ÷ 10 in
        iToA_loop free' (byte (48 + i - q * 10) :: digits) q wid
    end
  else
    match free with
    | O => None
    | S _ => Some (byte (48 + i) :: digits)
    end.

Definition iToA (buf : bytes) (i wid : Z) : option bytes :=
  match iToA_loop 20 [] i wid with
  | Some ds => Some (buf ++ ds)
  | None => None
  end.

(** ** The world: time, sinks, the heap of loggers *)

(** A [time.Time], as seconds elapsed in local time; only [Clock] reads it.
    The time package is the standard library's: [Clock] is written from its
    documentation. *)
Abbreviation Time := Z (only parsing).

(** [t.Clock()]: hour, minute and second within the day of [t]. *)
Definition Clock (t : Time) : Z * Z * Z :=
  let sec := t mod 86400 in
  (sec / 3600, sec mod 3600 / 60, sec mod 60).

Abbreviation error := (list ascii) (only parsing).

(** One call [Write(p)] on the sink named [n]. *)
Definition Event : Type := nat * bytes.

(** An [io.Writer]: a sink with an identity and a [Write] method.  [Write]
    returns the count and the error of the call; what it answers may depend
    on the calls made so far, on any sink.  [Write] always answers: a sink
    that panics, blocks for ever or is nil is not a [Writer] here. *)
Record Writer : Type := mkWriter {
  wname : nat;
  Write : list Event -> bytes -> Z * option error
}.

(** [os.Stderr]: file descriptor 2; writes never fail here. *)
Definition os_Stderr : Writer :=
  mkWriter 2 (fun _ p => (Z.of_nat (length p), None)).

Record logger : Type := mklogger {
  level : Z;        (* int32 *)
  prefix : bytes;
  flags : Z;
  out : Writer;
  buf : bytes
}.

(** Assignments to one field: [x.level = v] and so on. *)
Definition with_level (v : Z) (x : logger) : logger :=
  mklogger v (prefix x) (flags x) (out x) (buf x).
Definition with_prefix (v : bytes) (x : logger) : logger :=
  mklogger (level x) v (flags x) (out x) (buf x).
Definition with_flags (v : Z) (x : logger) : logger :=
  mklogger (level x) (prefix x) v (out x) (buf x).
Definition with_out (v : Writer) (x : logger) : logger :=
  mklogger (level x) (prefix x) (flags x) v (buf x).
Definition with_buf (v : bytes) (x : logger) : logger :=
  mklogger (level x) (prefix x) (flags x) (out x) v.

Abbreviation loc := nat (only parsing).

(** [now] is what the next [time.Now()] returns and [later] what the calls
    after it return, in order; once [later] is used up the clock stands. *)
Record World : Type := mkWorld {
  heap : gmap nat logger;
  trace : list Event;
  now : Z;
  later : list Z
}.

Definition set_heap (f : gmap nat logger -> gmap nat logger) (w : World) : World :=
  mkWorld (f (heap w)) (trace w) (now w) (later w).

Definition set_trace (f : list Event -> list Event) (w : World) : World :=
  mkWorld (heap w) (f (trace w)) (now w) (later w).

(** The world once the clock has been read. *)
Definition tick (w : World) : World :=
  mkWorld (heap w) (trace w) (default (now w) (head (later w))) (tail (later w)).

(** ** Computations

    A call either returns a value, ends the process through [os.Exit], or
    panics.  A panic unwinds the goroutine; the state it leaves is not
    described. *)

Inductive Outcome (A : Type) : Type :=
| Ret (a : A) (w : World)
| Exit (code : Z) (w : World)
| Panic (msg : string).

Arguments Ret {A} a w.
Arguments Exit {A} code w.
Arguments Panic {A} msg.

Definition M (A : Type) : Type := World -> Outcome A.

Definition ret {A} (a : A) : M A := fun w => Ret a w.

Definition bind {A C} (m : M A) (k : A -> M C) : M C :=
  fun w =>
    match m w with
    | Ret a w' => k a w'
    | Exit c w' => Exit c w'
    | Panic msg => Panic msg
    end.

Notation "'do' x <- m ; k" := (bind m (fun x => k))
  (at level 10, x name, m at level 100, k at level 200).

Definition os_Exit {A} (code : Z) : M A := fun w => Exit code w.

Definition panic {A} (msg : string) : M A := fun _ => Panic msg.

Definition time_Now : M Z := fun w => Ret (now w) (tick w).

(** Dereference of a [*logger]. *)
Definition load (l : loc) : M logger :=
  fun w =>
    match heap w !! l with
    | Some x => Ret x w
    | None => Panic "invalid memory address or nil pointer dereference"
    end.

Definition store (l : loc) (x : logger) : M unit :=
  fun w => Ret tt (set_heap (insert l x) w).

(** [o.Write(p)]: the call is recorded and the sink's answer returned. *)
Definition Writer_Write (o : Writer) (p : bytes) : M (Z * option error) :=
  fun w => Ret (Write o (trace w) p) (set_trace (fun tr => tr ++ [(wname o, p)]) w).

(** ** The logger's accessors

    The level is the only field read and written through [sync/atomic]. *)

Definition atomic_LoadInt32 (l : loc) : M Z :=
  do x <- load l; ret (level x).

Definition atomic_StoreInt32 (l : loc) (v : Z) : M unit :=
  do x <- load l; store l (with_level v x).

Definition logger_SetLevel (l : loc) (level : Level) : M unit :=
  let level :=
    if level <? LevelQuiet then LevelQuiet
    else if level >? LevelTrace then LevelTrace
    else level in
  atomic_StoreInt32 l (int32 level).

Definition logger_GetLevel (l : loc) : M Level :=
  atomic_LoadInt32 l.

Definition logger_SetFlags (l : loc) (flags : Z) : M unit :=
  do x <- load l; store l (with_flags flags x).

Definition logger_GetFlags (l : loc) : M Z :=
  do x <- load l; ret (flags x).

Definition logger_SetPrefix (l : loc) (prefix : bytes) : M unit :=
  do x <- load l; store l (with_prefix prefix x).

Definition logger_GetPrefix (l : loc) : M bytes :=
  do x <- load l; ret (prefix x).

Definition logger_SetOutput (l : loc) (out : Writer) : M unit :=
  do x <- load l; store l (with_out out x).

Definition logger_GetOutput (l : loc) : M Writer :=
  do x <- load l; ret (out x).

(** ** The header and the line *)

(** [buildHeader] reads [l.prefix] only; [x] is the struct behind [l]. *)
Definition buildHeader (x : logger) (level : Level) (buf : bytes) (t : Z)
  : option bytes :=
  let pref := default [] (levelPrefixes !! level) in
  let buf := buf ++ pref in
  let buf := buf ++ ["/"%char] in
  let '(hour, min, sec) := Clock t in
  buf ← iToA buf hour 2;
  let buf := buf ++ [":"%char] in
  buf ← iToA buf min 2;
  let buf := buf ++ [":"%char] in
  buf ← iToA buf sec 2;
  let buf := buf ++ [" "%char] in
  let buf := buf ++ prefix x in
  Some (buf ++ B ": ").

(** [len(s) == 0 || s[len(s)-1] != '\n'] *)
Definition lacks_newline (s : bytes) : bool :=
  (length s =? 0)%nat || negb (bool_decide (last s = Some newline)).

(** The line is assembled in [l.buf], which is left holding it, and handed
    to the sink in one [Write]; the error of that call is the result. *)
Definition printOut (l : loc) (level : Level) (s : bytes) : M (option error) :=
  do now <- time_Now;
  do x <- load l;
  let buf := take 0 (buf x) in
  let '(color, hasColor) :=
    match levelColors !! level with
    | Some c => (c, true)
    | None => ([], false)
    end in
  let hasColor := hasColor && negb (Z.land (flags x) FlagColorMode =? 0) in
  let buf := if hasColor then buf ++ color else buf in
  match buildHeader x level buf now with
  | None => panic "index out of range"
  | Some buf =>
      let buf := buf ++ s in
      let buf := if lacks_newline s then buf ++ [newline] else buf in
      let buf := if hasColor then buf ++ colorReset else buf in
      do _ <- store l (with_buf buf x);
      do r <- Writer_Write (out x) buf;
      ret (snd r)
  end.

(** ** The emitters

    [fmt] is not part of the package: the three renderers are an interface
    of the development, instantiated further down for closed examples. *)

Class Fmt : Type := mkFmt {
  any : Type;
  Sprint : list any -> bytes;
  Sprintln : list any -> bytes;
  Sprintf : bytes -> list any -> bytes
}.

Section Emitters.
Context {F : Fmt}.

Definition logger_Print (l : loc) (level : Level) (v : list any) : M unit :=
  do cur <- atomic_LoadInt32 l;
  if cur <? int32 level then
    if level =? LevelFatal then os_Exit 1 else ret tt
  else
    do _ <- printOut l level (Sprint v);
    if level =? LevelFatal then os_Exit 1 else ret tt.

Definition logger_Println (l : loc) (level : Level) (v : list any) : M unit :=
  do cur <- atomic_LoadInt32 l;
  if cur <? int32 level then
    if level =? LevelFatal then os_Exit 1 else ret tt
  else
    do _ <- printOut l level (Sprintln v);
    if level =? LevelFatal then os_Exit 1 else ret tt.

Definition logger_Printf (l : loc) (level : Level) (format : bytes)
    (v : list any) : M unit :=
  do cur <- atomic_LoadInt32 l;
  if cur <? int32 level then
    if level <=? LevelFatal then os_Exit 1 else ret tt
  else
    do _ <- printOut l level (Sprintf format v);
    if level <=? LevelFatal then os_Exit 1 else ret tt.

End Emitters.

(** ** Construction, cloning and the default instance *)

(** [&l] of a fresh struct: a location not yet in the heap. *)
Definition New (level : Level) (prefix : bytes) (out : Writer) (flags : Z)
  : M loc :=
  fun w =>
    let l := fresh (dom (heap w)) in
    Ret l (set_heap (insert l (mklogger (int32 level) prefix flags out [])) w).

Definition logger_Clone (l : loc) : M loc :=
  do x <- load l;
  New (level x) (prefix x) (out x) (flags x).

(** The world before the package is initialised, at time [t]. *)
Definition boot (t : Z) : World := mkWorld ∅ [] t [].

(** [var std = New(LevelWarn, "", os.Stderr, 0)] *)
Definition package_init : M loc := New LevelWarn [] os_Stderr 0.

Definition std : loc := fresh (dom (∅ : gmap nat logger)).

Definition GetDefault : M loc := ret std.

Definition NewDefault : M loc := logger_Clone std.

Section Facade.
Context {F : Fmt}.

Definition Print (level : Level) (v : list any) : M unit :=
  logger_Print std level v.

Definition Printf (level : Level) (format : bytes) (v : list any) : M unit :=
  logger_Printf std level format v.

Definition Println (level : Level) (format : bytes) (v : list any) : M unit :=
  logger_Printf std level format v.

End Facade.

(** ** A fragment of fmt, for closed examples

    Operands are strings.  [Sprint] adds no space between string operands;
    [Sprintln] always adds one and ends the line.  [Sprintf] covers format
    strings whose verbs carry no flag, width, precision or argument index:
    the verbs s and v print the operand, a doubled percent sign prints one,
    any other verb is reported as a bad verb (so q, x and X are outside the
    fragment), a missing operand and surplus operands are reported the way
    fmt reports them. *)

Fixpoint join (sep : bytes) (l : list bytes) : bytes :=
  match l with
  | [] => []
  | [x] => x
  | x :: l' => x ++ sep ++ join sep l'
  end.

Definition extra (a : list bytes) : bytes :=
  match a with
  | [] => []
  | _ => B "%!(EXTRA " ++ join (B ", ") (map (fun x => B "string=" ++ x) a) ++ B ")"
  end.

Fixpoint doPrintf (format : bytes) (a : list bytes) : bytes :=
  match format with
  | [] => extra a
  | c :: rest =>
      if negb (Ascii.eqb c "%") then c :: doPrintf rest a
      else
        match rest with
        | [] => B "%!(NOVERB)" ++ extra a
        | verb :: rest' =>
            if Ascii.eqb verb "%" then "%"%char :: doPrintf rest' a
            else
              match a with
              | [] => B "%!" ++ [verb] ++ B "(MISSING)" ++ doPrintf rest' []
              | arg :: a' =>
                  (if Ascii.eqb verb "s" || Ascii.eqb verb "v" then arg
                   else B "%!" ++ [verb] ++ B "(string=" ++ arg ++ B ")")
                  ++ doPrintf rest' a'
              end
        end
  end.

Definition fmt_strings : Fmt :=
  mkFmt bytes (fun v => concat v) (fun v => join (B " ") v ++ [newline]) doPrintf.

(** ** Observations on outcomes *)

(** The world a call leaves behind, when it leaves one. *)
Definition final {A} (o : Outcome A) : option World :=
  match o with
  | Ret _ w => Some w
  | Exit _ w => Some w
  | Panic _ => None
  end.

(** The [Write] calls recorded when the call is over. *)
Definition written {A} (o : Outcome A) : list Event :=
  match final o with
  | Some w => trace w
  | None => []
  end.

(** The process was ended by [os.Exit] with a non-zero status. *)
Definition exits_nonzero {A} (o : Outcome A) : Prop :=
  exists c w, o = Exit c w /\ c <> 0.

Definition returns {A} (o : Outcome A) : Prop :=
  exists a w, o = Ret a w.

(** ** The rendered line, in closed form *)

Definition two_digits (i : Z) : bytes := [byte (48 + i / 10); byte (48 + i mod 10)].

Definition clock_text (t : Z) : bytes :=
  let '(hour, min, sec) := Clock t in
  two_digits hour ++ [":"%char] ++ two_digits min ++ [":"%char] ++ two_digits sec.

(** Whether the line for [level] is wrapped in colour by [x]. *)
Definition colored (x : logger) (level : Level) : bool :=
  bool_decide (is_Some (levelColors !! level))
  && negb (Z.land (flags x) FlagColorMode =? 0).

(** Everything in front of the message. *)
Definition line_head (x : logger) (level : Level) (t : Z) : bytes :=
  (if colored x level then default [] (levelColors !! level) else [])
  ++ default [] (levelPrefixes !! level) ++ ["/"%char] ++ clock_text t
  ++ [" "%char] ++ prefix x ++ B ": ".

(** What the builder puts between the message and the colour reset. *)
Definition line_break (s : bytes) : bytes :=
  if lacks_newline s then [newline] else [].

(** Everything behind the message and its line break. *)
Definition line_tail (x : logger) (level : Level) : bytes :=
  if colored x level then colorReset else [].

Definition render (x : logger) (level : Level) (s : bytes) (t : Z) : bytes :=
  line_head x level t ++ s ++ line_break s ++ line_tail x level.

(** The world after [l], holding [x], has written the line for [s]. *)
Definition wrote (l : loc) (x : logger) (level : Level) (s : bytes) (w : World)
  : World :=
  let line := render x level s (now w) in
  mkWorld (<[l := with_buf line x]> (heap w))
          (trace w ++ [(wname (out x), line)]) (now (tick w)) (later (tick w)).

(** The value a call returns, when it returns. *)
Definition value {A} (o : Outcome A) : option A :=
  match o with
  | Ret a _ => Some a
  | _ => None
  end.

(** The level check at the head of the three emitters, on the struct [x]. *)
Definition gated (x : logger) (lv : Level) : bool := level x <? int32 lv.

(** ** Digits *)

Definition is_digit (c : ascii) : Prop := (48 <= nat_of_ascii c <= 57)%nat.

(** The number a string of decimal digits denotes. *)
Definition decimal_value (ds : bytes) : Z :=
  foldl (fun acc c => acc * 10 + (Z.of_nat (nat_of_ascii c) - 48)) 0 ds.

Definition two_digits_ok (i : Z) : bool :=
  bool_decide (length (two_digits i) = 2%nat)
  && forallb (fun c => (48 <=? nat_of_ascii c)%nat && (nat_of_ascii c <=? 57)%nat)
       (two_digits i)
  && (decimal_value (two_digits i) =? i).

(** The line as the specification words it: level letter, slash, clock, space,
    prefix, colon and space, the message, and then always a newline. *)
Definition spec_line (letter : bytes) (t : Z) (pfx s : bytes) : bytes :=
  letter ++ ["/"%char] ++ clock_text t ++ [" "%char] ++ pfx ++ B ": " ++ s
  ++ [newline].

(** ** Sequences of setter calls *)

(** The four configuration setters, as calls to be made on an instance. *)
Inductive Setter : Type :=
| SetLevel (v : Z)
| SetFlags (v : Z)
| SetPrefix (v : bytes)
| SetOutput (v : Writer).

Definition call (l : loc) (op : Setter) : M unit :=
  match op with
  | SetLevel v => logger_SetLevel l v
  | SetFlags v => logger_SetFlags l v
  | SetPrefix v => logger_SetPrefix l v
  | SetOutput v => logger_SetOutput l v
  end.

Fixpoint calls (l : loc) (ops : list Setter) : M unit :=
  match ops with
  | [] => ret tt
  | op :: ops' => do _ <- call l op; calls l ops'
  end.

(** The configuration of an instance: every field but the scratch buffer. *)
Definition config (x : logger) : Z * bytes * Z * Writer :=
  (level x, prefix x, flags x, out x).

(** ** Sample worlds and sinks *)

(** A world holding the single logger [x] at location 0, at time [t]. *)
Definition world_of (x : logger) (t : Z) : World :=
  mkWorld {[ 0%nat := x ]} [] t [].

(** The same, with the readings the clock gives after [t]. *)
Definition world_with_clock (x : logger) (t : Z) (ts : list Z) : World :=
  mkWorld {[ 0%nat := x ]} [] t ts.

(** 14:05:09 on the first day. *)
Definition t_140509 : Z := 14 * 3600 + 5 * 60 + 9.

Definition app_logger (level : Z) (flags : Z) : logger :=
  mklogger level (B "APP") flags os_Stderr [].

(** A sink that rejects every write, and a logger writing to it. *)
Definition broken_sink : Writer :=
  mkWriter 7 (fun _ _ => (0, Some (B "broken pipe"))).

Definition broken_logger : logger := mklogger LevelWarn (B "APP") 0 broken_sink [].

(** A sink that rejects the first write it is given and accepts the others,
    and a logger writing to it. *)
Definition flaky_sink : Writer :=
  mkWriter 7 (fun tr p =>
                match tr with
                | [] => (0, Some (B "broken pipe"))
                | _ => (Z.of_nat (length p), None)
                end).

Definition flaky_logger : logger := mklogger LevelWarn (B "APP") 0 flaky_sink [].

(** The sink of [x] rejects the one write [printOut] makes for the message
    [s] at level [lv] in the world [w]: the line is the payload and the
    writes of [trace w] came before. *)
Definition write_rejected (w : World) (x : logger) (lv : Level) (s : bytes) : Prop :=
  exists n e, Write (out x) (trace w) (render x lv s (now w)) = (n, Some e).

(** The call returned to its caller, made exactly one [Write], which the
    sink rejected, and left the configuration of [l] as it was in [x]. *)
Definition swallowed (w : World) (l : loc) (x : logger) (o : Outcome unit) : Prop :=
  exists w' p,
    o = Ret tt w' /\
    trace w' = trace w ++ [(wname (out x), p)] /\
    (exists n e, Write (out x) (trace w) p = (n, Some e)) /\
    (exists y, heap w' !! l = Some y /\ config y = config x) /\
    (forall l', l' <> l -> heap w' !! l' = heap w !! l').

(** A line with nothing in front of the slash and no colour around it. *)
Definition quiet_line (x : logger) (t : Z) (s : bytes) : bytes :=
  ["/"%char] ++ clock_text t ++ [" "%char] ++ prefix x ++ B ": " ++ s
  ++ line_break s.

(** The set-up of the README's first example: the package is initialised
    and the default instance raised to [LevelTrace]. *)
Definition readme_setup : M unit :=
  do _ <- package_init;
  do l <- GetDefault;
  logger_SetLevel l LevelTrace.

(** ** Calls of the emitters, and the level invariant *)

Section EmitCalls.
Context {F : Fmt}.

(** A call of one of the three emitting methods, without its level. *)
Inductive Emit : Type :=
| EmitPrint (v : list any)
| EmitPrintln (v : list any)
| EmitPrintf (format : bytes) (v : list any).

Definition emit (l : loc) (lv : Level) (e : Emit) : M unit :=
  match e with
  | EmitPrint v => logger_Print l lv v
  | EmitPrintln v => logger_Println l lv v
  | EmitPrintf format v => logger_Printf l lv format v
  end.

(** The message the call renders. *)
Definition body (e : Emit) : bytes :=
  match e with
  | EmitPrint v => Sprint v
  | EmitPrintln v => Sprintln v
  | EmitPrintf format v => Sprintf format v
  end.

End EmitCalls.

(** The stored level is one of the levels of the package. *)
Definition level_ok (x : logger) : Prop := LevelQuiet <= level x <= LevelTrace.

Definition heap_ok (w : World) : Prop :=
  forall l x, heap w !! l = Some x -> level_ok x.

(** * Properties *)

(** ** The embedding at work *)

Example iToA_5 : iToA (B "x") 5 2 = Some (B "x05").
Proof. reflexivity. Qed.

Example iToA_14 : iToA [] 14 2 = Some (B "14").
Proof. reflexivity. Qed.

Example iToA_free_width : iToA [] 1234 (-1) = Some (B "1234").
Proof. reflexivity. Qed.

Example iToA_wide_panics : iToA [] 0 21 = None.
Proof. reflexivity. Qed.

Example levelPrefixes_info : levelPrefixes !! LevelInfo = Some (B "I").
Proof. reflexivity. Qed.

Example levelPrefixes_quiet : levelPrefixes !! LevelQuiet = None.
Proof. reflexivity. Qed.

Example std_is_0 : std = 0%nat.
Proof. vm_compute. reflexivity. Qed.

Example Sprintln_strings :
  @Sprintln fmt_strings [B "This is"; B "an"; B "info"] = B "This is an info" ++ [newline].
Proof. reflexivity. Qed.

Example Sprintf_strings_verbs :
  @Sprintf fmt_strings (B "%s is 100%% %v") [B "it"; B "fine"] = B "it is 100% fine".
Proof. reflexivity. Qed.

Example Sprintf_strings_extra :
  @Sprintf fmt_strings (B "a") [B "b"; B "c"] = B "a%!(EXTRA string=b, string=c)".
Proof. reflexivity. Qed.

(** ** iToA and the clock *)

Lemma Clock_range t h m s :
  Clock t = (h, m, s) -> 0 <= h < 24 /\ 0 <= m < 60 /\ 0 <= s < 60.
Proof.
  unfold Clock. intros E. injection E as <- <- <-.
  pose proof (Z.mod_pos_bound t 86400 ltac:(lia)) as Ht.
  pose proof (Z.mod_pos_bound (t mod 86400) 3600 ltac:(lia)) as Hm.
  repeat split;
    try (apply Z.div_pos; lia);
    try (apply Z.div_lt_upper_bound; lia);
    try (apply Z.mod_pos_bound; lia).
Qed.

Lemma iToA_loop_two_digits i :
  0 <= i < 100 -> iToA_loop 20 [] i 2 = Some (two_digits i).
Proof.
  intros Hi.
  assert (Hall : forallb
            (fun n => bool_decide
               (iToA_loop 20 [] (Z.of_nat n) 2 = Some (two_digits (Z.of_nat n))))
            (seq 0 100) = true) by (vm_compute; reflexivity).
  rewrite forallb_forall in Hall.
  assert (Hin : In (Z.to_nat i) (seq 0 100)) by (apply in_seq; lia).
  apply Hall in Hin. rewrite Z2Nat.id in Hin by lia.
  by apply bool_decide_eq_true in Hin.
Qed.

Lemma iToA_two_digits buf i :
  0 <= i < 100 -> iToA buf i 2 = Some (buf ++ two_digits i).
Proof. intros Hi. unfold iToA. by rewrite iToA_loop_two_digits. Qed.

(** ** The header and the line *)

Lemma buildHeader_spec x level buf t :
  buildHeader x level buf t =
  Some (buf ++ default [] (levelPrefixes !! level) ++ ["/"%char] ++ clock_text t
        ++ [" "%char] ++ prefix x ++ B ": ").
Proof.
  unfold buildHeader, clock_text.
  destruct (Clock t) as [[h m] s] eqn:E.
  destruct (Clock_range _ _ _ _ E) as (Hh & Hm & Hs).
  rewrite iToA_two_digits by lia. cbn [mbind option_bind].
  rewrite iToA_two_digits by lia. cbn [mbind option_bind].
  rewrite iToA_two_digits by lia. cbn [mbind option_bind].
  f_equal. by rewrite <- !app_assoc.
Qed.

Lemma printOut_spec l x level s w :
  heap w !! l = Some x ->
  printOut l level s w =
  Ret (snd (Write (out x) (trace w) (render x level s (now w)))) (wrote l x level s w).
Proof.
  intros Hl. unfold printOut, bind, time_Now, load.
  change (heap (tick w)) with (heap w). rewrite Hl.
  unfold wrote, render, line_head, line_tail, line_break, colored.
  rewrite take_0.
  destruct (levelColors !! level) as [c|] eqn:Ec;
    destruct (Z.land (flags x) FlagColorMode =? 0) eqn:Ef;
    cbn [andb negb bool_decide default];
    rewrite buildHeader_spec; unfold store, Writer_Write, ret, set_heap, set_trace;
    cbn [heap trace now out with_buf];
    try (rewrite (bool_decide_eq_true_2 _ (mk_is_Some _ _ eq_refl)));
    try (rewrite (bool_decide_eq_false_2 (is_Some None) is_Some_None));
    cbn [andb negb default id];
    destruct (lacks_newline s);
    rewrite ?app_nil_r, ?app_nil_l, <- ?app_assoc; reflexivity.
Qed.

(** ** The emitters, in closed form *)

Section EmitterFacts.
Context {F : Fmt}.

Lemma logger_Print_spec l x lv v w :
  heap w !! l = Some x ->
  logger_Print l lv v w =
  if gated x lv then
    if lv =? LevelFatal then Exit 1 w else Ret tt w
  else
    if lv =? LevelFatal then Exit 1 (wrote l x lv (Sprint v) w)
    else Ret tt (wrote l x lv (Sprint v) w).
Proof.
  intros Hl. unfold logger_Print, atomic_LoadInt32, gated, bind at 1 2, load.
  rewrite Hl. unfold ret at 1.
  destruct (level x <? int32 lv).
  - by destruct (lv =? LevelFatal).
  - unfold bind. rewrite (printOut_spec _ _ _ _ _ Hl).
    by destruct (lv =? LevelFatal).
Qed.

Lemma logger_Println_spec l x lv v w :
  heap w !! l = Some x ->
  logger_Println l lv v w =
  if gated x lv then
    if lv =? LevelFatal then Exit 1 w else Ret tt w
  else
    if lv =? LevelFatal then Exit 1 (wrote l x lv (Sprintln v) w)
    else Ret tt (wrote l x lv (Sprintln v) w).
Proof.
  intros Hl. unfold logger_Println, atomic_LoadInt32, gated, bind at 1 2, load.
  rewrite Hl. unfold ret at 1.
  destruct (level x <? int32 lv).
  - by destruct (lv =? LevelFatal).
  - unfold bind. rewrite (printOut_spec _ _ _ _ _ Hl).
    by destruct (lv =? LevelFatal).
Qed.

Lemma logger_Printf_spec l x lv format v w :
  heap w !! l = Some x ->
  logger_Printf l lv format v w =
  if gated x lv then
    if lv <=? LevelFatal then Exit 1 w else Ret tt w
  else
    if lv <=? LevelFatal then Exit 1 (wrote l x lv (Sprintf format v) w)
    else Ret tt (wrote l x lv (Sprintf format v) w).
Proof.
  intros Hl. unfold logger_Printf, atomic_LoadInt32, gated, bind at 1 2, load.
  rewrite Hl. unfold ret at 1.
  destruct (level x <? int32 lv).
  - by destruct (lv <=? LevelFatal).
  - unfold bind. rewrite (printOut_spec _ _ _ _ _ Hl).
    by destruct (lv <=? LevelFatal).
Qed.

End EmitterFacts.

(** ** Termination on fatal levels *)

Section Termination.
Context {F : Fmt}.

(** C1.  For every instance and every requested level: [Print] and [Println]
    end the process with a non-zero status exactly when the level is
    [LevelFatal]; [Printf] does so exactly when the level is at most
    [LevelFatal], which among the levels of the package means [LevelFatal]
    or [LevelQuiet].  The process is ended with status 1 both when the
    message was gated out (nothing is written) and when it was rendered and
    written (the line is in the sink). *)
Theorem fatal_termination w l x lv format v :
  heap w !! l = Some x ->
  (exits_nonzero (logger_Print l lv v w) <-> lv = LevelFatal) /\
  (exits_nonzero (logger_Println l lv v w) <-> lv = LevelFatal) /\
  (exits_nonzero (logger_Printf l lv format v w) <-> lv <= LevelFatal) /\
  (LevelQuiet <= lv <= LevelTrace ->
   (lv <= LevelFatal <-> lv = LevelFatal \/ lv = LevelQuiet)) /\
  (lv = LevelFatal ->
   logger_Print l lv v w =
     Exit 1 (if gated x lv then w else wrote l x lv (Sprint v) w) /\
   logger_Println l lv v w =
     Exit 1 (if gated x lv then w else wrote l x lv (Sprintln v) w)) /\
  (lv <= LevelFatal ->
   logger_Printf l lv format v w =
     Exit 1 (if gated x lv then w else wrote l x lv (Sprintf format v) w)).
Proof.
  intros Hl.
  rewrite (logger_Print_spec _ _ _ _ _ Hl), (logger_Println_spec _ _ _ _ _ Hl),
    (logger_Printf_spec _ _ _ _ _ _ Hl).
  unfold exits_nonzero, LevelFatal, LevelQuiet, LevelTrace.
  destruct (Z.eqb_spec lv 1) as [E|E]; destruct (Z.leb_spec lv 1) as [L|L];
    try lia; destruct (gated x lv);
    repeat split; try done; try lia;
    try (intros (c & w' & Hc & _); discriminate);
    try (intros _; exists 1; eexists; split; [reflexivity | lia]);
    try (intros; lia).
Qed.

End Termination.

Lemma fatal_termination_witness :
  exits_nonzero (@logger_Print fmt_strings 0%nat LevelFatal [B "out of memory"]
                   (world_of (app_logger LevelWarn 0) t_140509))
  <-> LevelFatal = LevelFatal.
Proof.
  apply (@fatal_termination fmt_strings (world_of (app_logger LevelWarn 0) t_140509)
           0%nat (app_logger LevelWarn 0) LevelFatal [] [B "out of memory"]).
  reflexivity.
Defined.

(** ** The level gate *)

Lemma int32_id z : is_int32 z -> int32 z = z.
Proof.
  unfold is_int32, int32. intros Hz.
  rewrite Z.mod_small by lia. lia.
Qed.

Lemma int32_range z : is_int32 (int32 z).
Proof.
  unfold is_int32, int32.
  pose proof (Z.mod_pos_bound (z + 2147483648) 4294967296 ltac:(lia)). lia.
Qed.

Section Gate.
Context {F : Fmt}.

(** Requested levels that fit in 32 bits are gated as documented: the
    world is left as it was, so no [Write] was made and no field of any
    instance changed. *)
Lemma gate_holds_for_int32_levels w l x lv format v :
  heap w !! l = Some x ->
  is_int32 lv ->
  level x < lv ->
  lv <> LevelFatal ->
  final (logger_Print l lv v w) = Some w /\
  final (logger_Println l lv v w) = Some w /\
  final (logger_Printf l lv format v w) = Some w.
Proof.
  intros Hl Hr Hlt Hne.
  rewrite (logger_Print_spec _ _ _ _ _ Hl), (logger_Println_spec _ _ _ _ _ Hl),
    (logger_Printf_spec _ _ _ _ _ _ Hl).
  unfold gated. rewrite (int32_id _ Hr).
  destruct (Z.ltb_spec (level x) lv); [|lia].
  destruct (lv =? LevelFatal), (lv <=? LevelFatal); done.
Qed.

End Gate.

(** C2, at a failing input.  On an instance at [LevelTrace], [Print] with
    the requested level 2^32 + 2 is not gated although the current level is
    below the requested one and the requested level is not [LevelFatal]:
    the gate compares with [int32(level)], which is 2, and a line is
    written. *)
Theorem gate_truncates_level :
  level (app_logger LevelTrace 0) < 4294967298 /\
  4294967298 <> LevelFatal /\
  heap (world_of (app_logger LevelTrace 0) t_140509) !! 0%nat
    = Some (app_logger LevelTrace 0) /\
  written (@logger_Print fmt_strings 0%nat 4294967298 [B "x"]
             (world_of (app_logger LevelTrace 0) t_140509))
  = [(2%nat, B "/14:05:09 APP: x" ++ [newline])].
Proof. repeat split; try done. Qed.

(** ** The format of a plain line *)

Lemma two_digits_decimal i :
  0 <= i < 100 ->
  length (two_digits i) = 2%nat /\ Forall is_digit (two_digits i)
  /\ decimal_value (two_digits i) = i.
Proof.
  intros Hi.
  assert (Hall : forallb (fun n => two_digits_ok (Z.of_nat n)) (seq 0 100) = true)
    by (vm_compute; reflexivity).
  rewrite forallb_forall in Hall.
  assert (Hin : In (Z.to_nat i) (seq 0 100)) by (apply in_seq; lia).
  apply Hall in Hin. rewrite Z2Nat.id in Hin by lia.
  unfold two_digits_ok in Hin.
  apply andb_prop in Hin as [Hin Hv]. apply andb_prop in Hin as [Hlen Hd].
  apply bool_decide_eq_true in Hlen. apply Z.eqb_eq in Hv.
  repeat split; try done.
  apply Forall_forall. intros c Hc. rewrite forallb_forall in Hd.
  apply list_elem_of_In, Hd, andb_prop in Hc as [H1 H2].
  unfold is_digit. apply Nat.leb_le in H1, H2. lia.
Qed.

(** C3 as stated fails on a message that already ends the line.  At
    14:05:09, prefix APP, level Info, colour off, the message hello with its
    own newline is written with that one newline, not with a second one. *)
Lemma line_keeps_single_newline :
  written (printOut 0%nat LevelInfo (B "hello" ++ [newline])
             (world_of (app_logger LevelTrace 0) t_140509))
  = [(2%nat, B "I/14:05:09 APP: hello" ++ [newline])]
  /\ written (printOut 0%nat LevelInfo (B "hello" ++ [newline])
                (world_of (app_logger LevelTrace 0) t_140509))
     <> [(2%nat, spec_line (B "I") t_140509 (B "APP") (B "hello" ++ [newline]))].
Proof. split; [reflexivity | discriminate]. Qed.

(** C3, amended.  With ColorMode off and a level that has a letter, the
    one line written is letter, slash, HH:MM:SS, space, prefix, colon and
    space, the message, and a newline when the message is empty or does not
    already end with one.  Hour, minute and second are each two decimal
    digits denoting the clock's value, so zero-padded. *)
Theorem plain_line_format w l x lv letter s h m sec :
  heap w !! l = Some x ->
  levelPrefixes !! lv = Some letter ->
  Z.land (flags x) FlagColorMode = 0 ->
  Clock (now w) = (h, m, sec) ->
  returns (printOut l lv s w) /\
  written (printOut l lv s w) =
    trace w ++
    [(wname (out x),
      letter ++ ["/"%char] ++ two_digits h ++ [":"%char] ++ two_digits m
      ++ [":"%char] ++ two_digits sec ++ [" "%char] ++ prefix x ++ B ": " ++ s
      ++ (if lacks_newline s then [newline] else []))] /\
  Forall (fun i => length (two_digits i) = 2%nat /\ Forall is_digit (two_digits i)
                   /\ decimal_value (two_digits i) = i) [h; m; sec] /\
  (lacks_newline s = true -> 
   written (printOut l lv s w) =
     trace w ++ [(wname (out x), spec_line letter (now w) (prefix x) s)]).
Proof.
  intros Hl Hp Hf Hc.
  rewrite (printOut_spec _ _ _ _ _ Hl).
  assert (Hr : render x lv s (now w) =
    letter ++ ["/"%char] ++ two_digits h ++ [":"%char] ++ two_digits m
      ++ [":"%char] ++ two_digits sec ++ [" "%char] ++ prefix x ++ B ": " ++ s
      ++ (if lacks_newline s then [newline] else [])).
  { unfold render, line_head, line_tail, line_break, colored, clock_text.
    rewrite Hp, Hc, Hf, andb_false_r. cbn [default negb Z.eqb].
    rewrite app_nil_r, <- !app_assoc. reflexivity. }
  destruct (Clock_range _ _ _ _ Hc) as (Hh & Hm & Hs).
  split; [by eexists; eexists|].
  split; [unfold written, final, wrote; cbn [trace]; by rewrite Hr|].
  split.
  - do 3 (constructor; [apply two_digits_decimal; lia|]). constructor.
  - intros Hn. unfold written, final, wrote; cbn [trace]. rewrite Hr, Hn.
    unfold spec_line, clock_text. rewrite Hc, <- !app_assoc. reflexivity.
Qed.

(** The specification's example: I/14:05:09 APP: hello and a newline. *)
Lemma plain_line_format_witness :
  written (printOut 0%nat LevelInfo (B "hello")
             (world_of (app_logger LevelTrace 0) t_140509))
  = [(2%nat, B "I/14:05:09 APP: hello" ++ [newline])].
Proof.
  apply (plain_line_format (world_of (app_logger LevelTrace 0) t_140509) 0%nat
           (app_logger LevelTrace 0) LevelInfo (B "I") (B "hello") 14 5 9);
    reflexivity.
Defined.

(** ** The trailing newline *)

Lemma lacks_newline_iff s :
  lacks_newline s = true <-> s = [] \/ last s <> Some newline.
Proof.
  unfold lacks_newline. rewrite orb_true_iff, negb_true_iff, bool_decide_eq_false.
  rewrite Nat.eqb_eq, length_zero_iff_nil. reflexivity.
Qed.

Lemma has_newline_iff s :
  lacks_newline s = false <-> last s = Some newline.
Proof.
  rewrite <- not_true_iff_false, lacks_newline_iff. split.
  - intros Hn. destruct (decide (last s = Some newline)) as [|Hne]; [done|].
    destruct Hn. by right.
  - intros Hs [->|Hn]; [discriminate | done].
Qed.

(** C4.  For every message [s], the line written is the head of the line,
    then [s] itself, then the line break, then the tail (the colour reset,
    or nothing); head and tail do not depend on [s].  The line break is one
    newline exactly when [s] is empty or does not end with a newline, and is
    empty exactly when [s] ends with a newline: nothing is added to such an
    [s] and nothing is taken from it. *)
Theorem newline_rule w l x lv s :
  heap w !! l = Some x ->
  returns (printOut l lv s w) /\
  written (printOut l lv s w) =
    trace w ++
    [(wname (out x),
      line_head x lv (now w) ++ s ++ line_break s ++ line_tail x lv)] /\
  (line_break s = [newline] <-> s = [] \/ last s <> Some newline) /\
  (line_break s = [] <-> last s = Some newline) /\
  newline ∉ line_tail x lv.
Proof.
  intros Hl. rewrite (printOut_spec _ _ _ _ _ Hl).
  split; [by eexists; eexists|]. split; [reflexivity|].
  rewrite <- lacks_newline_iff, <- has_newline_iff. unfold line_break, line_tail.
  repeat split; destruct (lacks_newline s); try done.
  all: destruct (colored x lv); [|by apply not_elem_of_nil].
  all: unfold colorReset; intros Hin; apply list_elem_of_In in Hin;
    vm_compute in Hin; intuition discriminate.
Qed.

Lemma newline_rule_witness :
  written (printOut 0%nat LevelError (B "disk full" ++ [newline; newline])
             (world_of (app_logger LevelTrace FlagColorMode) t_140509))
  = [(2%nat,
      esc :: B "[31mE/14:05:09 APP: disk full" ++ [newline; newline]
      ++ esc :: B "[0m")].
Proof.
  apply (newline_rule (world_of (app_logger LevelTrace FlagColorMode) t_140509)
           0%nat (app_logger LevelTrace FlagColorMode) LevelError
           (B "disk full" ++ [newline; newline])).
  reflexivity.
Defined.

(** ** Construction and the level setter *)

(** [New] always returns, with a location that was free, and stores the
    prefix, the sink and the flags as given, the level narrowed to 32 bits
    and an empty buffer. *)
Lemma New_spec lv pfx o fl w :
  exists c w',
    New lv pfx o fl w = Ret c w' /\ heap w !! c = None /\
    heap w' = <[c := mklogger (int32 lv) pfx fl o []]> (heap w) /\
    trace w' = trace w /\ now w' = now w.
Proof.
  unfold New. eexists; eexists. split; [reflexivity|].
  split; [|done]. apply not_elem_of_dom, is_fresh.
Qed.

(** C5, at failing inputs.  [New] stores the level it is given: built with
    -5 the instance reports -5, built with 999 it reports 999, neither of
    which lies between [LevelQuiet] and [LevelTrace]; [SetLevel] on the same
    inputs clamps. *)
Theorem New_does_not_clamp :
  value ((do l <- New (-5) (B "APP") os_Stderr 0; logger_GetLevel l) (boot 0))
    = Some (-5) /\
  value ((do l <- New 999 (B "APP") os_Stderr 0; logger_GetLevel l) (boot 0))
    = Some 999 /\
  ~ (LevelQuiet <= -5 <= LevelTrace) /\ ~ (LevelQuiet <= 999 <= LevelTrace) /\
  value ((do l <- New LevelWarn (B "APP") os_Stderr 0;
          do _ <- logger_SetLevel l (-5); logger_GetLevel l) (boot 0))
    = Some LevelQuiet.
Proof.
  repeat split; try reflexivity; unfold LevelQuiet, LevelTrace; lia.
Qed.

(** C6.  After [SetLevel(v)] the instance reports [v] when [v] lies between
    [LevelQuiet] and [LevelTrace], [LevelQuiet] when [v] is below and
    [LevelTrace] when [v] is above; both calls return. *)
Theorem SetLevel_clamps w l x v :
  heap w !! l = Some x ->
  exists r w',
    (do _ <- logger_SetLevel l v; logger_GetLevel l) w = Ret r w' /\
    (LevelQuiet <= v <= LevelTrace -> r = v) /\
    (v < LevelQuiet -> r = LevelQuiet) /\
    (v > LevelTrace -> r = LevelTrace).
Proof.
  intros Hl.
  unfold logger_SetLevel, logger_GetLevel, atomic_StoreInt32, atomic_LoadInt32,
    bind, load, store, ret, set_heap.
  rewrite Hl. cbn [heap]. rewrite lookup_insert_eq. cbn [level with_level].
  eexists; eexists. split; [reflexivity|].
  unfold LevelQuiet, LevelTrace.
  destruct (Z.ltb_spec v 0); [|destruct (Z.gtb_spec v 6)];
    repeat split; intros; try lia; try reflexivity.
  rewrite int32_id; [lia | unfold is_int32; lia].
Qed.

Lemma SetLevel_clamps_witness :
  value ((do _ <- logger_SetLevel 0%nat (-5); logger_GetLevel 0%nat)
           (world_of (app_logger LevelWarn 0) 0)) = Some LevelQuiet /\
  value ((do _ <- logger_SetLevel 0%nat 999; logger_GetLevel 0%nat)
           (world_of (app_logger LevelWarn 0) 0)) = Some LevelTrace.
Proof.
  destruct (SetLevel_clamps (world_of (app_logger LevelWarn 0) 0) 0%nat
              (app_logger LevelWarn 0) (-5) eq_refl) as (r1 & w1 & E1 & _ & Lo & _).
  destruct (SetLevel_clamps (world_of (app_logger LevelWarn 0) 0) 0%nat
              (app_logger LevelWarn 0) 999 eq_refl) as (r2 & w2 & E2 & _ & _ & Hi).
  rewrite E1, E2. cbn [value]. split; f_equal; [apply Lo | apply Hi]; reflexivity.
Defined.

(** ** The package-level functions *)

Lemma package_init_std t :
  package_init (boot t) =
  Ret std (mkWorld {[ std := mklogger LevelWarn [] 0 os_Stderr [] ]} [] t []).
Proof. reflexivity. Qed.

Section FacadeFacts.
Context {F : Fmt}.

(** The package-level [Println] is the method [Printf] on the default
    instance, whatever the renderers are. *)
Lemma Println_is_Printf lv format v :
  Println lv format v = logger_Printf std lv format v.
Proof. reflexivity. Qed.

End FacadeFacts.

(** C7, at a failing input: the README's call
    [Println(LevelInfo, "This is", "an", "info level log")].  The method
    [Println] on the default instance writes the operands separated by
    single spaces; the package-level [Println] takes the first operand for a
    format string and writes what [Printf] makes of the others.  Both calls
    come from one defect: the body of [Println] calls [std.Printf]. *)
Theorem Println_formats_like_Printf :
  written ((do _ <- readme_setup;
            @logger_Println fmt_strings std LevelInfo
              [B "This is"; B "an"; B "info level log"]) (boot t_140509))
    = [(2%nat, B "I/14:05:09 : This is an info level log" ++ [newline])] /\
  written ((do _ <- readme_setup;
            @Println fmt_strings LevelInfo (B "This is")
              [B "an"; B "info level log"]) (boot t_140509))
    = [(2%nat,
        B "I/14:05:09 : This is%!(EXTRA string=an, string=info level log)"
        ++ [newline])] /\
  returns ((do _ <- readme_setup;
            @logger_Println fmt_strings std LevelQuiet [B "x"]) (boot t_140509)) /\
  exits_nonzero ((do _ <- readme_setup;
                  @Println fmt_strings LevelQuiet (B "x") []) (boot t_140509)).
Proof.
  split; [reflexivity|]. split; [reflexivity|]. split.
  - eexists; eexists. vm_compute. reflexivity.
  - exists 1. eexists. split; [vm_compute; reflexivity | lia].
Qed.

(** ** Clone *)

(** A setter called on an allocated instance returns, and touches no other
    location of the heap and no sink. *)
Lemma call_frame c op w :
  is_Some (heap w !! c) ->
  exists w',
    call c op w = Ret tt w' /\ is_Some (heap w' !! c) /\
    (forall l, l <> c -> heap w' !! l = heap w !! l) /\ trace w' = trace w.
Proof.
  intros [y Hy].
  destruct op; cbn [call];
    unfold logger_SetLevel, atomic_StoreInt32, logger_SetFlags, logger_SetPrefix,
      logger_SetOutput, bind, load, store, set_heap;
    rewrite Hy; eexists; (split; [reflexivity|]); cbn [heap trace];
    (split; [rewrite lookup_insert_eq; eauto|]);
    (split; [|done]); intros l Hne; by rewrite lookup_insert_ne.
Qed.

Lemma calls_frame c ops : forall w,
  is_Some (heap w !! c) ->
  exists w',
    calls c ops w = Ret tt w' /\ is_Some (heap w' !! c) /\
    (forall l, l <> c -> heap w' !! l = heap w !! l) /\ trace w' = trace w.
Proof.
  induction ops as [|op ops IH]; intros w Hc; cbn [calls].
  - exists w. by repeat split.
  - destruct (call_frame c op w Hc) as (w1 & E1 & Hc1 & Hf1 & Ht1).
    destruct (IH w1 Hc1) as (w2 & E2 & Hc2 & Hf2 & Ht2).
    exists w2. unfold bind. rewrite E1. repeat split; try done.
    + intros l Hne. by rewrite Hf2, Hf1.
    + congruence.
Qed.

(** C8.  [Clone] returns a location that was not in the heap, so a new
    instance, holding the level, prefix, flags and sink of the source and an
    empty buffer of its own; the source is as it was.  From then on, whatever
    setters are called on the clone, the source keeps its struct, and
    whatever setters are called on the source, the clone keeps its own. *)
Theorem Clone_independent w l x :
  heap w !! l = Some x ->
  is_int32 (level x) ->
  exists c w',
    logger_Clone l w = Ret c w' /\
    c <> l /\ heap w !! c = None /\
    heap w' !! l = Some x /\
    (exists y, heap w' !! c = Some y /\ config y = config x /\ buf y = []) /\
    (forall ops, exists w'',
        calls c ops w' = Ret tt w'' /\ heap w'' !! l = Some x) /\
    (forall ops, exists w'',
        calls l ops w' = Ret tt w'' /\ heap w'' !! c = heap w' !! c).
Proof.
  intros Hl Hr.
  destruct (New_spec (level x) (prefix x) (out x) (flags x) w)
    as (c & w' & E & Hfresh & Hh & _).
  assert (Hne : c <> l) by congruence.
  assert (Hl' : heap w' !! l = Some x) by (by rewrite Hh, lookup_insert_ne).
  assert (Hc' : heap w' !! c =
                Some (mklogger (int32 (level x)) (prefix x) (flags x) (out x) []))
    by (by rewrite Hh, lookup_insert_eq).
  exists c, w'. unfold logger_Clone, bind, load. rewrite Hl.
  repeat split; try done.
  - eexists. split; [exact Hc'|]. unfold config. cbn. by rewrite int32_id.
  - intros ops.
    destruct (calls_frame c ops w' ltac:(by rewrite Hc')) as (w2 & E2 & _ & Hf & _).
    exists w2. split; [done|]. rewrite Hf by done. done.
  - intros ops.
    destruct (calls_frame l ops w' ltac:(by rewrite Hl')) as (w2 & E2 & _ & Hf & _).
    exists w2. split; [done|]. by rewrite Hf.
Qed.

(** The specification's example: the clone's prefix is set to X and the source
    still answers APP. *)
Lemma Clone_independent_witness :
  value ((do c <- logger_Clone 0%nat;
          do _ <- logger_SetPrefix c (B "X");
          logger_GetPrefix 0%nat) (world_of (app_logger LevelDebug 0) 0))
  = Some (B "APP").
Proof.
  destruct (Clone_independent (world_of (app_logger LevelDebug 0) 0) 0%nat
              (app_logger LevelDebug 0) eq_refl
              ltac:(unfold is_int32, app_logger, LevelDebug; cbn; lia))
    as (c & w' & E & _ & _ & _ & _ & Hsrc & _).
  destruct (Hsrc [SetPrefix (B "X")]) as (w2 & E2 & Hl2).
  unfold bind at 1. rewrite E.
  cbn [calls call] in E2. unfold bind in E2 |- *.
  destruct (logger_SetPrefix c (B "X") w') as [[] w3|? ?|?]; try discriminate.
  injection E2 as ->. unfold logger_GetPrefix, bind, load. by rewrite Hl2.
Defined.

(** ** Write errors *)

(** C9 as stated fails for [Printf] at [LevelQuiet]: the call is not gated
    and its level is not [LevelFatal], yet it ends the process with status 1
    after the rejected write instead of returning. *)
Lemma Printf_quiet_exits_after_rejected_write :
  gated broken_logger LevelQuiet = false /\
  LevelQuiet <> LevelFatal /\
  Write (out broken_logger) [] (B "/14:05:09 APP: bye" ++ [newline])
    = (0, Some (B "broken pipe")) /\
  @logger_Printf fmt_strings 0%nat LevelQuiet (B "bye") []
    (world_of broken_logger t_140509)
  = Exit 1 (wrote 0%nat broken_logger LevelQuiet (B "bye")
              (world_of broken_logger t_140509)) /\
  ~ returns (@logger_Printf fmt_strings 0%nat LevelQuiet (B "bye") []
               (world_of broken_logger t_140509)).
Proof.
  repeat split; try done.
  intros (a & w' & E). vm_compute in E. discriminate.
Qed.

Section WriteErrors.
Context {F : Fmt}.

Lemma wrote_swallowed w l x lv s :
  heap w !! l = Some x ->
  write_rejected w x lv s ->
  swallowed w l x (Ret tt (wrote l x lv s w)).
Proof.
  intros Hl Hrej. exists (wrote l x lv s w), (render x lv s (now w)).
  unfold wrote. cbn [heap trace]. repeat split; try done.
  - eexists. rewrite lookup_insert_eq. by split.
  - intros l' Hne. by rewrite lookup_insert_ne.
Qed.

(** C9, amended.  A call that is not gated and whose one write the sink
    rejects, whatever the sink does with other writes, returns to its caller
    with no value, after that one [Write] and with the configuration
    unchanged, when it is [Print] or [Println] at a level other than
    [LevelFatal], or [Printf] at a level above [LevelFatal]. *)
Theorem write_errors_are_swallowed w l x lv format v :
  heap w !! l = Some x ->
  gated x lv = false ->
  (lv <> LevelFatal -> write_rejected w x lv (Sprint v) ->
   swallowed w l x (logger_Print l lv v w)) /\
  (lv <> LevelFatal -> write_rejected w x lv (Sprintln v) ->
   swallowed w l x (logger_Println l lv v w)) /\
  (LevelFatal < lv -> write_rejected w x lv (Sprintf format v) ->
   swallowed w l x (logger_Printf l lv format v w)).
Proof.
  intros Hl Hg.
  rewrite (logger_Print_spec _ _ _ _ _ Hl), (logger_Println_spec _ _ _ _ _ Hl),
    (logger_Printf_spec _ _ _ _ _ _ Hl), Hg.
  split; [|split].
  - intros Hne Hrej. apply Z.eqb_neq in Hne. rewrite Hne. by apply wrote_swallowed.
  - intros Hne Hrej. apply Z.eqb_neq in Hne. rewrite Hne. by apply wrote_swallowed.
  - intros Hlt Hrej. apply Z.leb_gt in Hlt. rewrite Hlt. by apply wrote_swallowed.
Qed.

End WriteErrors.

Lemma write_errors_are_swallowed_witness :
  swallowed (world_of flaky_logger t_140509) 0%nat flaky_logger
    (@logger_Printf fmt_strings 0%nat LevelError (B "%s: %v") [B "open"; B "denied"]
       (world_of flaky_logger t_140509)).
Proof.
  apply (@write_errors_are_swallowed fmt_strings (world_of flaky_logger t_140509)
           0%nat flaky_logger LevelError (B "%s: %v") [B "open"; B "denied"]).
  - reflexivity.
  - reflexivity.
  - reflexivity.
  - exists 0, (B "broken pipe"). reflexivity.
Defined.

(** ** Messages at LevelQuiet *)

Lemma colored_quiet x : colored x LevelQuiet = false.
Proof.
  unfold colored.
  replace (levelColors !! LevelQuiet) with (@None bytes) by reflexivity.
  by rewrite (bool_decide_eq_false_2 (is_Some None) is_Some_None).
Qed.

Section Quiet.
Context {F : Fmt}.

(** C10.  On an instance whose level lies between [LevelQuiet] and
    [LevelTrace], [Print] and [Println] at [LevelQuiet] are not gated: each
    writes one line that starts with the slash, with no colour sequence
    before it or after it whatever the flags are, and returns. *)
Theorem quiet_messages_are_written w l x v :
  heap w !! l = Some x ->
  LevelQuiet <= level x <= LevelTrace ->
  gated x LevelQuiet = false /\
  colored x LevelQuiet = false /\
  (exists w', logger_Print l LevelQuiet v w = Ret tt w' /\
     trace w' = trace w ++ [(wname (out x), quiet_line x (now w) (Sprint v))]) /\
  (exists w', logger_Println l LevelQuiet v w = Ret tt w' /\
     trace w' = trace w ++ [(wname (out x), quiet_line x (now w) (Sprintln v))]).
Proof.
  intros Hl Hr.
  assert (Hg : gated x LevelQuiet = false).
  { unfold gated. apply Z.ltb_ge. change (int32 LevelQuiet) with 0.
    unfold LevelQuiet in Hr. lia. }
  assert (Hq : forall s, render x LevelQuiet s (now w) = quiet_line x (now w) s).
  { intros s. unfold render, quiet_line, line_head, line_tail.
    rewrite colored_quiet, levelPrefixes_quiet.
    cbn [default app]. rewrite app_nil_r. f_equal.
    rewrite <- !app_assoc. cbn [app]. by rewrite <- ?app_assoc. }
  rewrite (logger_Print_spec _ _ _ _ _ Hl), (logger_Println_spec _ _ _ _ _ Hl), Hg.
  cbn [Z.eqb LevelQuiet LevelFatal].
  split; [done|]. split; [apply colored_quiet|].
  split; (eexists; split; [reflexivity|]); unfold wrote; cbn [trace];
    by rewrite Hq.
Qed.

End Quiet.

Lemma quiet_messages_are_written_witness :
  written (@logger_Println fmt_strings 0%nat LevelQuiet [B "still"; B "here"]
             (world_of (app_logger LevelQuiet FlagColorMode) t_140509))
  = [(2%nat, B "/14:05:09 APP: still here" ++ [newline])].
Proof.
  destruct (@quiet_messages_are_written fmt_strings
              (world_of (app_logger LevelQuiet FlagColorMode) t_140509) 0%nat
              (app_logger LevelQuiet FlagColorMode) [B "still"; B "here"] eq_refl
              ltac:(unfold app_logger, LevelQuiet, LevelTrace; cbn; lia))
    as (_ & _ & _ & (w' & E & Ht)).
  rewrite E. unfold written, final. rewrite Ht. reflexivity.
Defined.

(** * Further properties of the package *)

(** ** iToA on arbitrary integers and widths *)

Lemma digit_code r :
  0 <= r <= 9 -> Z.of_nat (nat_of_ascii (byte (48 + r))) = 48 + r.
Proof.
  intros Hr.
  assert (Hc : r = 0 \/ r = 1 \/ r = 2 \/ r = 3 \/ r = 4 \/ r = 5 \/ r = 6
               \/ r = 7 \/ r = 8 \/ r = 9) by lia.
  repeat (destruct Hc as [->|Hc]; [reflexivity|]). by subst.
Qed.

Lemma digit_is_digit r : 0 <= r <= 9 -> is_digit (byte (48 + r)).
Proof. intros Hr. pose proof (digit_code r Hr). unfold is_digit. lia. Qed.

Lemma decimal_value_snoc pre c :
  decimal_value (pre ++ [c]) =
  decimal_value pre * 10 + (Z.of_nat (nat_of_ascii c) - 48).
Proof. unfold decimal_value. by rewrite foldl_app. Qed.

Lemma decrement_no_wrap wid :
  -9223372036854775808 < wid -> decrement wid = wid - 1.
Proof.
  intros Hw. unfold decrement.
  destruct (Z.eqb_spec wid (-9223372036854775808)); [lia|done].
Qed.

(** What one run of the loop adds in front of [digits]: decimal digits that
    denote [i], at least [wid] of them, with a leading zero only when the
    width asks for it.  The width is far enough from the least [int] for
    its decrements not to wrap. *)
Lemma iToA_loop_decimal free : forall digits i wid ds,
  0 <= i ->
  -9223372036854775808 + Z.of_nat free <= wid ->
  iToA_loop free digits i wid = Some ds ->
  exists pre,
    ds = pre ++ digits /\ Forall is_digit pre /\ decimal_value pre = i /\
    wid <= Z.of_nat (length pre) /\ (1 <= length pre)%nat /\
    (wid <= 1 -> 0 < i -> head pre <> Some "0"%char) /\
    (i < 10 ^ Z.max wid 1 -> Z.of_nat (length pre) = Z.max wid 1).
Proof.
  induction free as [|free IH]; intros digits i wid ds Hi Hmin; cbn [iToA_loop];
    destruct ((10 <=? i) || (1 <? wid)) eqn:Hc; try discriminate.
  - rewrite decrement_no_wrap by lia.
    intros Hrec. apply IH in Hrec as (pre & -> & Hd & Hv & Hw & Hl & Hz & Hx);
      [|apply Z.quot_pos; lia|lia].
    rewrite Z.quot_div_nonneg in * by lia.
    assert (Hr : 0 <= i - i / 10 * 10 <= 9).
    { pose proof (Z.mod_pos_bound i 10 ltac:(lia)).
      pose proof (Z.div_mod i 10 ltac:(lia)). lia. }
    exists (pre ++ [byte (48 + (i - i / 10 * 10))]).
    replace (48 + i - i / 10 * 10) with (48 + (i - i / 10 * 10)) by lia.
    rewrite <- app_assoc. split; [reflexivity|].
    split; [apply Forall_app; split; [done|]; apply Forall_singleton;
            by apply digit_is_digit|].
    rewrite decimal_value_snoc, digit_code, Hv, length_app by done. cbn [length].
    split; [lia|]. split; [lia|]. split; [lia|]. split.
    + intros Hw1 Hpos. destruct pre as [|c pre]; [cbn in Hl; lia|].
      cbn [app head]. apply Hz; [lia|].
      apply orb_true_iff in Hc as [Hc|Hc]; [apply Z.leb_le in Hc|apply Z.ltb_lt in Hc; lia].
      apply Z.div_str_pos. lia.
    + intros Hlt.
      apply orb_true_iff in Hc as [Hc|Hc]; [apply Z.leb_le in Hc|apply Z.ltb_lt in Hc].
      * destruct (Z.le_gt_cases wid 1) as [Hle|Hgt].
        { rewrite Z.max_r in Hlt by lia. change (10 ^ 1) with 10 in Hlt. lia. }
        rewrite Z.max_l in Hlt |- * by lia.
        assert (Hq : i / 10 < 10 ^ Z.max (wid - 1) 1).
        { rewrite Z.max_l by lia. apply Z.div_lt_upper_bound; [lia|].
          rewrite <- Z.pow_succ_r by lia. by replace (Z.succ (wid - 1)) with wid by lia. }
        apply Hx in Hq. lia.
      * rewrite Z.max_l in Hlt |- * by lia.
        assert (Hq : i / 10 < 10 ^ Z.max (wid - 1) 1).
        { destruct (Z.le_gt_cases (wid - 1) 1) as [Hle|Hgt].
          - rewrite Z.max_r by lia. change (10 ^ 1) with 10.
            apply Z.div_lt_upper_bound; [lia|].
            assert (wid = 2) as -> by lia. change (10 ^ 2) with 100 in Hlt. lia.
          - rewrite Z.max_l by lia. apply Z.div_lt_upper_bound; [lia|].
            rewrite <- Z.pow_succ_r by lia.
            by replace (Z.succ (wid - 1)) with wid by lia. }
        apply Hx in Hq. lia.
  - intros [= <-]. apply orb_false_iff in Hc as [Hc1 Hc2].
    apply Z.leb_gt in Hc1. apply Z.ltb_ge in Hc2.
    exists [byte (48 + i)]. cbn [app length head].
    split; [done|]. split; [apply Forall_singleton, digit_is_digit; lia|].
    split; [unfold decimal_value; cbn [foldl]; rewrite digit_code by lia; lia|].
    split; [lia|]. split; [lia|]. split.
    + intros _ Hpos [= Hz]. pose proof (digit_code i ltac:(lia)) as Hd.
      rewrite Hz in Hd. change (Z.of_nat (nat_of_ascii "0")) with 48 in Hd. lia.
    + intros _. lia.
Qed.

(** The array is large enough for [free] digits and a width up to [free]. *)
Lemma iToA_loop_some free : forall digits i wid,
  (1 <= free)%nat -> 0 <= i < 10 ^ Z.of_nat free ->
  -9223372036854775808 + Z.of_nat free <= wid <= Z.of_nat free ->
  exists ds, iToA_loop free digits i wid = Some ds.
Proof.
  induction free as [|free IH]; intros digits i wid Hf Hi Hw; [lia|].
  cbn [iToA_loop]. destruct ((10 <=? i) || (1 <? wid)) eqn:Hc; [|eauto].
  rewrite decrement_no_wrap by lia.
  destruct free as [|free'].
  - exfalso. change (10 ^ Z.of_nat 1) with 10 in Hi.
    apply orb_true_iff in Hc as [Hc|Hc]; [apply Z.leb_le in Hc|apply Z.ltb_lt in Hc]; lia.
  - apply IH; [lia| |lia].
    rewrite Z.quot_div_nonneg by lia. split; [apply Z.div_pos; lia|].
    apply Z.div_lt_upper_bound; [lia|].
    rewrite <- Z.pow_succ_r by lia. rewrite <- Nat2Z.inj_succ. apply Hi.
Qed.

(** A width above the number of free cells runs off the array. *)
Lemma iToA_loop_none free : forall digits i wid,
  Z.of_nat free < wid -> iToA_loop free digits i wid = None.
Proof.
  induction free as [|free IH]; intros digits i wid Hw; cbn [iToA_loop].
  - by destruct ((10 <=? i) || (1 <? wid)).
  - assert (Hc : (1 <? wid) = true) by (apply Z.ltb_lt; lia).
    rewrite Hc, orb_true_r, decrement_no_wrap by lia. apply IH. lia.
Qed.

(** X1.  For a non-negative [i] of at most 20 digits and a width of at most
    20 that lies at least 20 above the least [int] (so that no decrement of
    the width wraps), [iToA] appends to [buf] a non-empty run of decimal
    digits that denotes [i] and is at least [wid] long; [buf] itself is
    kept. *)
Theorem iToA_decimal buf i wid :
  0 <= i < 10 ^ 20 ->
  -9223372036854775808 + 20 <= wid <= 20 ->
  exists pre,
    iToA buf i wid = Some (buf ++ pre) /\ Forall is_digit pre /\
    decimal_value pre = i /\ wid <= Z.of_nat (length pre) /\ pre <> [].
Proof.
  intros Hi Hw. unfold iToA.
  destruct (iToA_loop_some 20 [] i wid) as [ds E]; [lia|done|done|].
  rewrite E.
  destruct (iToA_loop_decimal 20 [] i wid ds (proj1 Hi) (proj1 Hw) E)
    as (pre & -> & Hd & Hv & Hl & Hn & _).
  exists pre. rewrite app_nil_r. repeat split; try done.
  intros ->. cbn in Hn. lia.
Qed.

Lemma iToA_decimal_witness :
  exists pre,
    iToA (B "pid ") 40312 (-1) = Some (B "pid " ++ pre) /\ Forall is_digit pre /\
    decimal_value pre = 40312 /\ -1 <= Z.of_nat (length pre) /\ pre <> [].
Proof. apply (iToA_decimal (B "pid ") 40312 (-1)); done. Defined.

(** X2.  With a width of at most 1 (the negative width of the doc comment)
    that lies at least 20 above the least [int], a positive [i] is written
    without padding: its first digit is not the digit zero. *)
Theorem iToA_no_padding buf i wid :
  0 < i < 10 ^ 20 ->
  -9223372036854775808 + 20 <= wid <= 1 ->
  exists c rest,
    iToA buf i wid = Some (buf ++ c :: rest) /\ c <> "0"%char /\
    decimal_value (c :: rest) = i.
Proof.
  intros Hi Hw. unfold iToA.
  destruct (iToA_loop_some 20 [] i wid) as [ds E]; [lia|lia|lia|].
  rewrite E.
  destruct (iToA_loop_decimal 20 [] i wid ds ltac:(lia) (proj1 Hw) E)
    as (pre & -> & _ & Hv & _ & Hn & Hz & _).
  destruct pre as [|c rest]; [cbn in Hn; lia|].
  exists c, rest. rewrite app_nil_r. repeat split; try done.
  intros ->. apply Hz; [lia|lia|reflexivity].
Qed.

Lemma iToA_no_padding_witness :
  exists c rest,
    iToA [] 7 (-1) = Some ([] ++ c :: rest) /\ c <> "0"%char /\
    decimal_value (c :: rest) = 7.
Proof. apply (iToA_no_padding [] 7 (-1)); done. Defined.

(** X3.  With a width between 1 and 20 and an [i] that fits in that many
    digits, [iToA] appends exactly [wid] digits, zero-padded on the left,
    that denote [i]. *)
Theorem iToA_fixed_width buf i wid :
  1 <= wid <= 20 ->
  0 <= i < 10 ^ wid ->
  exists pre,
    iToA buf i wid = Some (buf ++ pre) /\ Z.of_nat (length pre) = wid /\
    Forall is_digit pre /\ decimal_value pre = i.
Proof.
  intros Hw Hi. unfold iToA.
  assert (Hp : 10 ^ wid <= 10 ^ 20) by (apply Z.pow_le_mono_r; lia).
  destruct (iToA_loop_some 20 [] i wid) as [ds E]; [lia|lia|lia|].
  rewrite E.
  destruct (iToA_loop_decimal 20 [] i wid ds (proj1 Hi) ltac:(lia) E)
    as (pre & -> & Hd & Hv & _ & _ & _ & Hx).
  exists pre. rewrite app_nil_r. repeat split; try done.
  rewrite Hx; [lia|]. rewrite Z.max_l by lia. apply Hi.
Qed.

Lemma iToA_fixed_width_witness :
  exists pre,
    iToA [] 42 5 = Some ([] ++ pre) /\ Z.of_nat (length pre) = 5 /\
    Forall is_digit pre /\ decimal_value pre = 42.
Proof. apply (iToA_fixed_width [] 42 5); [done|done]. Defined.

(** X4.  A width above 20 needs more cells than the local array has:
    whatever [i] is, [iToA] panics with an index out of range and appends
    nothing. *)
Theorem iToA_width_overflow buf i wid :
  20 < wid -> iToA buf i wid = None.
Proof.
  intros Hw. unfold iToA. by rewrite iToA_loop_none.
Qed.

Lemma iToA_width_overflow_witness : iToA (B "x") 5 21 = None.
Proof. apply (iToA_width_overflow (B "x") 5 21). done. Defined.

Lemma iToA_loop_step free digits i wid :
  iToA_loop (S free) digits i wid =
  if (10 <=? i) || (1 <? wid)
  then iToA_loop free (byte (48 + i - i ÷ 10 * 10) :: digits) (i ÷ 10) (decrement wid)
  else Some (byte (48 + i) :: digits).
Proof. reflexivity. Qed.

(** X20.  At the least [int] the width cannot be decremented: for an [i]
    of two digits or more the first pass of the loop wraps the width to the
    greatest [int], the loop then runs off the local array and [iToA]
    panics; a one-digit [i] makes no pass and is written as it is. *)
Theorem iToA_least_width buf i :
  (10 <= i -> iToA buf i (-9223372036854775808) = None) /\
  (0 <= i < 10 -> iToA buf i (-9223372036854775808) = Some (buf ++ [byte (48 + i)])).
Proof.
  unfold iToA. change 20%nat with (S 19). rewrite iToA_loop_step.
  split; intros Hi.
  - assert (Hc : (10 <=? i) = true) by (apply Z.leb_le; lia).
    rewrite Hc. cbn [orb]. by rewrite iToA_loop_none.
  - assert (Hc : (10 <=? i) = false) by (apply Z.leb_gt; lia).
    by rewrite Hc.
Qed.

Lemma iToA_least_width_witness :
  iToA (B "x") 10 (-9223372036854775808) = None /\
  iToA (B "x") 7 (-9223372036854775808) = Some (B "x7").
Proof.
  split.
  - apply (iToA_least_width (B "x") 10). done.
  - apply (iToA_least_width (B "x") 7). done.
Defined.

(** ** The two level tables *)

(** The tables have the same keys, [LevelFatal] to [LevelTrace]; a prefix
    is one letter and a colour starts with the escape byte. *)
Lemma level_tables lv :
  (LevelFatal <= lv <= LevelTrace /\
   exists ch c, levelPrefixes !! lv = Some [ch] /\ levelColors !! lv = Some c
                /\ head c = Some esc)
  \/ (~ LevelFatal <= lv <= LevelTrace /\
      levelPrefixes !! lv = None /\ levelColors !! lv = None).
Proof.
  unfold LevelFatal, LevelTrace.
  assert (Hc : lv = 1 \/ lv = 2 \/ lv = 3 \/ lv = 4 \/ lv = 5 \/ lv = 6
               \/ ~ 1 <= lv <= 6) by lia.
  repeat (destruct Hc as [->|Hc];
          [left; split; [lia|]; do 2 eexists; repeat split; reflexivity|]).
  right. split; [done|].
  unfold levelPrefixes, levelColors, LevelFatal, LevelError, LevelWarn,
    LevelInfo, LevelDebug, LevelTrace.
  cbn [list_to_map foldr uncurry fst snd].
  rewrite !lookup_insert_ne by lia. by rewrite !lookup_empty.
Qed.

(** ** The shape of the line *)

Lemma clock_text_length t : length (clock_text t) = 8%nat.
Proof. unfold clock_text. by destruct (Clock t) as [[h m] s]. Qed.

Lemma colored_off x lv :
  Z.land (flags x) FlagColorMode = 0 \/ levelColors !! lv = None ->
  colored x lv = false.
Proof.
  unfold colored. intros [->| ->]; [by rewrite andb_false_r|].
  by rewrite (bool_decide_eq_false_2 (is_Some None) is_Some_None).
Qed.

Lemma colored_on x lv c :
  Z.land (flags x) FlagColorMode <> 0 -> levelColors !! lv = Some c ->
  colored x lv = true.
Proof.
  unfold colored. intros Hf ->. apply Z.eqb_neq in Hf. rewrite Hf.
  by rewrite (bool_decide_eq_true_2 _ (mk_is_Some _ _ eq_refl)).
Qed.

(** The line without colour: what [x] writes when its flags are 0. *)
Lemma render_plain x lv s t :
  render (with_flags 0 x) lv s t =
  default [] (levelPrefixes !! lv) ++ ["/"%char] ++ clock_text t ++ [" "%char]
  ++ prefix x ++ B ": " ++ s ++ line_break s.
Proof.
  unfold render, line_head, line_tail.
  rewrite (colored_off (with_flags 0 x) lv) by (by left).
  cbn [with_flags prefix]. rewrite app_nil_r, app_nil_l. by rewrite <- !app_assoc.
Qed.

Lemma render_uncolored x lv s t :
  colored x lv = false -> render x lv s t = render (with_flags 0 x) lv s t.
Proof.
  intros Hc. rewrite render_plain. unfold render, line_head, line_tail.
  rewrite Hc. rewrite app_nil_r, app_nil_l. by rewrite <- !app_assoc.
Qed.

Lemma render_colored x lv s t c :
  colored x lv = true -> levelColors !! lv = Some c ->
  render x lv s t = c ++ render (with_flags 0 x) lv s t ++ colorReset.
Proof.
  intros Hc Hl. rewrite render_plain. unfold render, line_head, line_tail.
  rewrite Hc, Hl. cbn [default]. by rewrite <- !app_assoc.
Qed.

Lemma plain_ends_with_newline x lv s t :
  last (render (with_flags 0 x) lv s t) = Some newline.
Proof.
  rewrite render_plain, !app_assoc, last_app. unfold line_break.
  destruct (lacks_newline s) eqn:Hs; [done|].
  apply has_newline_iff in Hs. cbn [last]. by rewrite last_app, Hs.
Qed.

Lemma written_printOut l x lv s w :
  heap w !! l = Some x ->
  written (printOut l lv s w) =
  trace w ++ [(wname (out x), render x lv s (now w))].
Proof. intros Hl. by rewrite (printOut_spec _ _ _ _ _ Hl). Qed.

Lemma lookup_with_flags l x w :
  heap (set_heap (insert l (with_flags 0 x)) w) !! l = Some (with_flags 0 x).
Proof. cbn [set_heap heap]. apply lookup_insert_eq. Qed.

(** X5.  With ColorMode off and a level from [LevelFatal] to [LevelTrace],
    the message starts 13 bytes plus the length of the prefix into the line
    (one letter, the slash, eight bytes of clock, a space, the prefix, a
    colon and a space), and what follows it is at most the one newline, which
    is the last byte of the line.  The package's test relies on this when it
    slices the line from byte 13 to its last byte. *)
Theorem message_after_header w l x lv s :
  heap w !! l = Some x ->
  LevelFatal <= lv <= LevelTrace ->
  Z.land (flags x) FlagColorMode = 0 ->
  exists line,
    written (printOut l lv s w) = trace w ++ [(wname (out x), line)] /\
    drop (13 + length (prefix x)) line = s ++ line_break s /\
    last line = Some newline /\
    (lacks_newline s = true ->
     take (length s) (drop (13 + length (prefix x)) line) = s /\
     length line = (13 + length (prefix x) + length s + 1)%nat).
Proof.
  intros Hl Hlv Hf. exists (render x lv s (now w)).
  split; [by apply written_printOut|].
  rewrite render_uncolored by (apply colored_off; by left).
  split; [|split; [apply plain_ends_with_newline|]].
  all: rewrite render_plain;
    destruct (level_tables lv) as [(_ & ch & c & -> & _)|(Hn & _)]; [|lia];
    change (default [] (Some [ch])) with [ch];
    assert (Hh : length ([ch] ++ ["/"%char] ++ clock_text (now w) ++ [" "%char]
                         ++ prefix x ++ B ": ")
                 = (13 + length (prefix x))%nat)
      by (rewrite !length_app, clock_text_length; cbn [length B list_ascii_of_string]; lia);
    rewrite <- Hh.
  - replace ([ch] ++ ["/"%char] ++ clock_text (now w) ++ [" "%char] ++ prefix x
             ++ B ": " ++ s ++ line_break s)
      with (([ch] ++ ["/"%char] ++ clock_text (now w) ++ [" "%char] ++ prefix x
             ++ B ": ") ++ s ++ line_break s) by (by rewrite <- !app_assoc).
    by rewrite drop_app_length.
  - intros Hs. unfold line_break. rewrite Hs.
    replace ([ch] ++ ["/"%char] ++ clock_text (now w) ++ [" "%char] ++ prefix x
             ++ B ": " ++ s ++ [newline])
      with (([ch] ++ ["/"%char] ++ clock_text (now w) ++ [" "%char] ++ prefix x
             ++ B ": ") ++ s ++ [newline]) by (by rewrite <- !app_assoc).
    split; [by rewrite drop_app_length, take_app_length|].
    rewrite !length_app. cbn [length]. lia.
Qed.

Lemma message_after_header_witness :
  exists line,
    written (printOut 0%nat LevelWarn (B "Using Print level")
               (world_of (mklogger LevelTrace [] 0 os_Stderr []) t_140509))
    = [] ++ [(2%nat, line)] /\
    drop (13 + 0) line = B "Using Print level" ++ [newline] /\
    last line = Some newline /\
    (true = true ->
     take 17 (drop (13 + 0) line) = B "Using Print level" /\
     length line = (13 + 0 + 17 + 1)%nat).
Proof.
  apply (message_after_header
           (world_of (mklogger LevelTrace [] 0 os_Stderr []) t_140509) 0%nat
           (mklogger LevelTrace [] 0 os_Stderr []) LevelWarn (B "Using Print level"));
    [reflexivity | done | reflexivity].
Defined.

(** X6.  With the ColorMode bit set and a level that has a colour, the line
    written is the line the same instance writes with its flags at 0, with
    the level's colour sequence in front and the reset sequence behind: the
    reset follows the newline. *)
Theorem color_wraps_plain_line w l x lv s c :
  heap w !! l = Some x ->
  levelColors !! lv = Some c ->
  Z.land (flags x) FlagColorMode <> 0 ->
  exists plain,
    written (printOut l lv s (set_heap (insert l (with_flags 0 x)) w))
      = trace w ++ [(wname (out x), plain)] /\
    written (printOut l lv s w)
      = trace w ++ [(wname (out x), c ++ plain ++ colorReset)] /\
    head c = Some esc /\ last plain = Some newline.
Proof.
  intros Hl Hc Hf. exists (render (with_flags 0 x) lv s (now w)).
  rewrite (written_printOut _ _ _ _ _ (lookup_with_flags l x w)).
  rewrite (written_printOut _ _ _ _ _ Hl).
  rewrite (render_colored x lv s (now w) c) by eauto using colored_on.
  repeat split; try done; [|apply plain_ends_with_newline].
  destruct (level_tables lv) as [(_ & ch & c' & _ & Hc' & He)|(_ & _ & Hn)];
    congruence.
Qed.

Lemma color_wraps_plain_line_witness :
  written (printOut 0%nat LevelWarn (B "low disk")
             (world_of (app_logger LevelTrace 3) t_140509))
  = [] ++ [(2%nat, (esc :: B "[33;1m") ++ (B "W/14:05:09 APP: low disk" ++ [newline])
                   ++ colorReset)].
Proof.
  destruct (color_wraps_plain_line (world_of (app_logger LevelTrace 3) t_140509)
              0%nat (app_logger LevelTrace 3) LevelWarn (B "low disk")
              (esc :: B "[33;1m") eq_refl eq_refl ltac:(done))
    as (plain & Hp & Hw & _).
  rewrite Hw. injection Hp as <-. reflexivity.
Defined.

(** X7.  The flags reach the output through the ColorMode bit alone, and
    only for a level that has a colour: when the bit is clear, or the level
    is outside [LevelFatal] to [LevelTrace], the line is byte for byte the
    one written with flags 0, with no colour or reset sequence. *)
Theorem flags_without_color_are_ignored w l x lv s :
  heap w !! l = Some x ->
  Z.land (flags x) FlagColorMode = 0 \/ ~ LevelFatal <= lv <= LevelTrace ->
  written (printOut l lv s w) =
  written (printOut l lv s (set_heap (insert l (with_flags 0 x)) w)).
Proof.
  intros Hl Hoff.
  rewrite (written_printOut _ _ _ _ _ (lookup_with_flags l x w)).
  rewrite (written_printOut _ _ _ _ _ Hl). cbn [set_heap trace now out with_flags].
  rewrite render_uncolored; [done|]. apply colored_off.
  destruct Hoff as [Hf|Hlv]; [by left|right].
  by destruct (level_tables lv) as [(Hin & _)|(_ & _ & Hn)].
Qed.

Lemma flags_without_color_are_ignored_witness :
  written (printOut 0%nat LevelWarn (B "low disk")
             (world_of (app_logger LevelTrace 6) t_140509))
  = [(2%nat, B "W/14:05:09 APP: low disk" ++ [newline])].
Proof.
  rewrite (flags_without_color_are_ignored
             (world_of (app_logger LevelTrace 6) t_140509) 0%nat
             (app_logger LevelTrace 6) LevelWarn (B "low disk") eq_refl
             (or_introl eq_refl)).
  reflexivity.
Defined.

(** X8.  Every line ends with a newline, before the colour reset when there
    is one: whatever the message, the level and the flags, the bytes written
    are a part that ends with a newline followed by the reset sequence
    (colour on) or by nothing (colour off). *)
Theorem line_ends_with_newline w l x lv s :
  heap w !! l = Some x ->
  exists part,
    written (printOut l lv s w) =
      trace w ++ [(wname (out x), part ++ (if colored x lv then colorReset else []))]
    /\ last part = Some newline
    /\ (colored x lv = true <->
        Z.land (flags x) FlagColorMode <> 0 /\ LevelFatal <= lv <= LevelTrace).
Proof.
  intros Hl. rewrite (written_printOut _ _ _ _ _ Hl).
  assert (Hiff : colored x lv = true <->
                 Z.land (flags x) FlagColorMode <> 0 /\ LevelFatal <= lv <= LevelTrace).
  { split.
    - intros Hc. unfold colored in Hc. apply andb_prop in Hc as [Hk Hf].
      apply bool_decide_eq_true in Hk as [c Hk]. apply negb_true_iff, Z.eqb_neq in Hf.
      split; [done|].
      destruct (level_tables lv) as [(Hin & _)|(_ & _ & Hn)]; [done|congruence].
    - intros [Hf Hin].
      destruct (level_tables lv) as [(_ & ch & c & _ & Hc & _)|(Hout & _)]; [|done].
      by apply (colored_on x lv c). }
  destruct (colored x lv) eqn:Hc.
  - destruct (proj1 Hiff eq_refl) as [Hf Hin].
    destruct (level_tables lv) as [(_ & ch & c & _ & Hk & _)|(Hout & _)]; [|done].
    exists (c ++ render (with_flags 0 x) lv s (now w)).
    rewrite (render_colored x lv s (now w) c Hc Hk), <- app_assoc.
    split; [done|]. split; [|done].
    by rewrite last_app, plain_ends_with_newline.
  - exists (render (with_flags 0 x) lv s (now w)).
    rewrite (render_uncolored x lv s (now w) Hc), app_nil_r.
    split; [done|]. split; [apply plain_ends_with_newline|done].
Qed.

Lemma line_ends_with_newline_witness :
  exists part,
    written (printOut 0%nat LevelQuiet [] (world_of (app_logger LevelTrace 1) t_140509))
    = [] ++ [(2%nat, part ++ (if colored (app_logger LevelTrace 1) LevelQuiet
                               then colorReset else []))]
    /\ last part = Some newline
    /\ (colored (app_logger LevelTrace 1) LevelQuiet = true <->
        Z.land (flags (app_logger LevelTrace 1)) FlagColorMode <> 0
        /\ LevelFatal <= LevelQuiet <= LevelTrace).
Proof.
  apply (line_ends_with_newline (world_of (app_logger LevelTrace 1) t_140509) 0%nat
           (app_logger LevelTrace 1) LevelQuiet []).
  reflexivity.
Defined.

(** X9.  The scratch buffer carries nothing from one call to the next: two
    calls in a row on one instance write, in order, the line the first call
    writes on its own and the line the second call would write on its own at
    the clock's next reading, and the buffer holds the second line
    afterwards. *)
Theorem printOut_twice w l x lv1 s1 lv2 s2 :
  heap w !! l = Some x ->
  exists line1 line2 w',
    written (printOut l lv1 s1 w) = trace w ++ [(wname (out x), line1)] /\
    written (printOut l lv2 s2 (tick w)) = trace w ++ [(wname (out x), line2)] /\
    final ((do _ <- printOut l lv1 s1; printOut l lv2 s2) w) = Some w' /\
    trace w' = trace w ++ [(wname (out x), line1); (wname (out x), line2)] /\
    heap w' !! l = Some (with_buf line2 x).
Proof.
  intros Hl.
  assert (Hlt : heap (tick w) !! l = Some x) by done.
  exists (render x lv1 s1 (now w)), (render x lv2 s2 (now (tick w))).
  rewrite (written_printOut _ _ _ _ _ Hl), (written_printOut _ _ _ _ _ Hlt).
  unfold bind. rewrite (printOut_spec _ _ _ _ _ Hl).
  assert (Hl1 : heap (wrote l x lv1 s1 w) !! l
                = Some (with_buf (render x lv1 s1 (now w)) x))
    by (unfold wrote; cbn [heap]; apply lookup_insert_eq).
  rewrite (printOut_spec _ _ _ _ _ Hl1).
  eexists. split; [done|]. split; [done|]. split; [reflexivity|].
  unfold wrote. cbn [heap trace out with_buf now].
  split; [by rewrite <- app_assoc|].
  by rewrite lookup_insert_eq.
Qed.

Lemma printOut_twice_witness :
  written ((do _ <- printOut 0%nat LevelError (B "first and longer");
            printOut 0%nat LevelInfo (B "second"))
             (world_with_clock (app_logger LevelTrace 0) t_140509 [t_140509 + 52]))
  = [(2%nat, B "E/14:05:09 APP: first and longer" ++ [newline]);
     (2%nat, B "I/14:06:01 APP: second" ++ [newline])].
Proof.
  destruct (printOut_twice
              (world_with_clock (app_logger LevelTrace 0) t_140509 [t_140509 + 52])
              0%nat
              (app_logger LevelTrace 0) LevelError (B "first and longer")
              LevelInfo (B "second") eq_refl)
    as (line1 & line2 & w' & H1 & H2 & Hf & Ht & _).
  injection H1 as <-. injection H2 as <-.
  unfold written. rewrite Hf, Ht. reflexivity.
Defined.

(** ** Accessors *)

Lemma call_spec l x op w :
  heap w !! l = Some x ->
  call l op w =
  Ret tt (set_heap (insert l
    match op with
    | SetLevel v =>
        with_level (int32 (if v <? LevelQuiet then LevelQuiet
                           else if v >? LevelTrace then LevelTrace else v)) x
    | SetFlags v => with_flags v x
    | SetPrefix v => with_prefix v x
    | SetOutput v => with_out v x
    end) w).
Proof.
  intros Hl. destruct op; cbn [call];
    unfold logger_SetLevel, atomic_StoreInt32, logger_SetFlags, logger_SetPrefix,
      logger_SetOutput, bind, load, store; by rewrite Hl.
Qed.

Lemma clamped_level_ok v :
  LevelQuiet <=
    int32 (if v <? LevelQuiet then LevelQuiet
           else if v >? LevelTrace then LevelTrace else v)
  <= LevelTrace.
Proof.
  unfold LevelQuiet, LevelTrace.
  destruct (Z.ltb_spec v 0); [done|].
  destruct (Z.gtb_spec v 6); [done|].
  rewrite int32_id; [lia|unfold is_int32; lia].
Qed.

(** X10.  What a setter stores is what the matching getter returns: the
    prefix, the flags and the sink come back as given, with no validation. *)
Theorem get_after_set w l x p f o :
  heap w !! l = Some x ->
  value ((do _ <- logger_SetPrefix l p; logger_GetPrefix l) w) = Some p /\
  value ((do _ <- logger_SetFlags l f; logger_GetFlags l) w) = Some f /\
  value ((do _ <- logger_SetOutput l o; logger_GetOutput l) w) = Some o.
Proof.
  intros Hl.
  unfold logger_SetPrefix, logger_GetPrefix, logger_SetFlags, logger_GetFlags,
    logger_SetOutput, logger_GetOutput, bind, load, store, ret, set_heap.
  rewrite Hl. cbn [heap]. by rewrite !lookup_insert_eq.
Qed.

Lemma get_after_set_witness :
  value ((do _ <- logger_SetFlags 0%nat (-1); logger_GetFlags 0%nat)
           (world_of (app_logger LevelWarn 0) 0)) = Some (-1).
Proof.
  apply (get_after_set (world_of (app_logger LevelWarn 0) 0) 0%nat
           (app_logger LevelWarn 0) [] (-1) os_Stderr).
  reflexivity.
Defined.

(** X11.  A setter returns and changes the one field it is named after:
    the other three configuration fields and the scratch buffer of the
    instance, every other instance, the sinks and the clock are as before.
    The level stored by [SetLevel] lies between [LevelQuiet] and
    [LevelTrace]. *)
Theorem setters_change_one_field w l x op :
  heap w !! l = Some x ->
  exists w' y,
    call l op w = Ret tt w' /\ heap w' !! l = Some y /\
    buf y = buf x /\ trace w' = trace w /\ now w' = now w /\
    (forall l', l' <> l -> heap w' !! l' = heap w !! l') /\
    match op with
    | SetLevel v =>
        prefix y = prefix x /\ flags y = flags x /\ out y = out x /\
        LevelQuiet <= level y <= LevelTrace
    | SetFlags v =>
        level y = level x /\ prefix y = prefix x /\ out y = out x /\ flags y = v
    | SetPrefix v =>
        level y = level x /\ flags y = flags x /\ out y = out x /\ prefix y = v
    | SetOutput v =>
        level y = level x /\ prefix y = prefix x /\ flags y = flags x /\ out y = v
    end.
Proof.
  intros Hl. rewrite (call_spec _ _ _ _ Hl). eexists; eexists.
  split; [reflexivity|]. cbn [set_heap heap trace now].
  split; [apply lookup_insert_eq|].
  split; [by destruct op|]. split; [done|]. split; [done|].
  split; [intros l' Hne; by rewrite lookup_insert_ne|].
  destruct op; cbn; repeat split; try done; apply clamped_level_ok.
Qed.

Lemma setters_change_one_field_witness :
  exists w' y,
    call 0%nat (SetLevel 40) (world_of (app_logger LevelWarn 1) 0) = Ret tt w' /\
    heap w' !! 0%nat = Some y /\ prefix y = B "APP" /\ flags y = 1 /\
    level y = LevelTrace.
Proof.
  destruct (setters_change_one_field (world_of (app_logger LevelWarn 1) 0) 0%nat
              (app_logger LevelWarn 1) (SetLevel 40) eq_refl)
    as (w' & y & E & Hy & _ & _ & _ & _ & Hp & Hf & _).
  exists w', y. repeat split; try done.
  cbv in E. injection E as <-. cbv in Hy. by injection Hy as <-.
Defined.

(** ** What an emitting call leaves behind *)

Section EmitFacts.
Context {F : Fmt}.

Lemma final_emit l x lv e w :
  heap w !! l = Some x ->
  final (emit l lv e w) = Some (if gated x lv then w else wrote l x lv (body e) w).
Proof.
  intros Hl. destruct e; cbn [emit body].
  - rewrite (logger_Print_spec _ _ _ _ _ Hl).
    by destruct (gated x lv), (lv =? LevelFatal).
  - rewrite (logger_Println_spec _ _ _ _ _ Hl).
    by destruct (gated x lv), (lv =? LevelFatal).
  - rewrite (logger_Printf_spec _ _ _ _ _ _ Hl).
    by destruct (gated x lv), (lv <=? LevelFatal).
Qed.

Lemma written_emit l x lv e w :
  heap w !! l = Some x ->
  written (emit l lv e w) =
  if gated x lv then trace w
  else trace w ++ [(wname (out x), render x lv (body e) (now w))].
Proof.
  intros Hl. unfold written. rewrite (final_emit _ _ _ _ _ Hl).
  by destruct (gated x lv).
Qed.


(** X13.  The level set by [SetLevel] is the threshold of the calls that
    follow: with a threshold [L] between [LevelQuiet] and [LevelTrace] and a
    requested level that fits in 32 bits, the call writes its line, the one
    [printOut] builds for the rendered message, when the requested level is
    at most [L], and writes nothing when it is above. *)
Theorem SetLevel_is_threshold w l x L lv e :
  heap w !! l = Some x ->
  LevelQuiet <= L <= LevelTrace ->
  is_int32 lv ->
  (lv <= L ->
   written ((do _ <- logger_SetLevel l L; emit l lv e) w) =
   written (printOut l lv (body e) w)) /\
  (L < lv ->
   written ((do _ <- logger_SetLevel l L; emit l lv e) w) = trace w).
Proof.
  intros Hl HL Hlv.
  pose proof (call_spec l x (SetLevel L) w Hl) as Hs. cbn [call] in Hs.
  unfold bind. rewrite Hs.
  unfold LevelQuiet, LevelTrace in *.
  destruct (Z.ltb_spec L 0); [lia|]. destruct (Z.gtb_spec L 6); [lia|].
  rewrite (written_emit l (with_level (int32 L) x));
    [|cbn [set_heap heap]; apply lookup_insert_eq].
  rewrite (written_printOut _ _ _ _ _ Hl).
  unfold gated. cbn [level with_level set_heap trace now out].
  rewrite (int32_id L), (int32_id lv) by (done || (unfold is_int32; lia)).
  split; intros Hc.
  - destruct (Z.ltb_spec L lv); [lia|]. reflexivity.
  - destruct (Z.ltb_spec L lv); [|lia]. reflexivity.
Qed.

(** X14.  When the renderer ends its text with a newline, as [Sprintln]
    does, the line is the head of the line, the rendered text and the tail,
    with no newline added; a call that is not gated writes exactly that. *)
Theorem Println_adds_no_newline w l x lv v :
  heap w !! l = Some x ->
  gated x lv = false ->
  last (Sprintln v) = Some newline ->
  written (logger_Println l lv v w) =
  trace w ++
  [(wname (out x), line_head x lv (now w) ++ Sprintln v ++ line_tail x lv)].
Proof.
  intros Hl Hg Hn.
  pose proof (written_emit l x lv (EmitPrintln v) w Hl) as Hw.
  cbn [emit body] in Hw. rewrite Hw, Hg. unfold render, line_break.
  apply has_newline_iff in Hn. by rewrite Hn.
Qed.

End EmitFacts.


Lemma SetLevel_is_threshold_witness :
  written ((do _ <- logger_SetLevel 0%nat LevelInfo;
            @emit fmt_strings 0%nat LevelDebug (@EmitPrint fmt_strings [B "x"]))
             (world_of (app_logger LevelTrace 0) t_140509)) = [].
Proof.
  apply (@SetLevel_is_threshold fmt_strings (world_of (app_logger LevelTrace 0) t_140509)
           0%nat (app_logger LevelTrace 0) LevelInfo LevelDebug (@EmitPrint fmt_strings [B "x"]));
    done.
Defined.

Lemma Println_adds_no_newline_witness :
  written (@logger_Println fmt_strings 0%nat LevelInfo [B "a"; B "b"]
             (world_of (app_logger LevelTrace 0) t_140509))
  = [(2%nat, B "I/14:05:09 APP: a b" ++ [newline])].
Proof.
  rewrite (@Println_adds_no_newline fmt_strings
             (world_of (app_logger LevelTrace 0) t_140509) 0%nat
             (app_logger LevelTrace 0) LevelInfo [B "a"; B "b"] eq_refl eq_refl eq_refl).
  reflexivity.
Defined.

(** ** Allocation, the default instance and the level invariant *)

Lemma Clone_spec l x w :
  heap w !! l = Some x ->
  exists c,
    c <> l /\ heap w !! c = None /\
    logger_Clone l w =
    Ret c (set_heap (insert c (mklogger (int32 (level x)) (prefix x) (flags x)
                                 (out x) [])) w).
Proof.
  intros Hl. unfold logger_Clone, bind, load. rewrite Hl.
  exists (fresh (dom (heap w))).
  assert (Hf : heap w !! fresh (dom (heap w)) = None)
    by apply not_elem_of_dom, is_fresh.
  split; [congruence|]. by split.
Qed.

Lemma unallocated_panics l w :
  heap w !! l = None ->
  (forall op, final (call l op w) = None) /\
  final (logger_Clone l w) = None /\
  (forall F lv e, final (@emit F l lv e w) = None).
Proof.
  intros Hl. split; [|split].
  - intros []; cbn [call];
      unfold logger_SetLevel, atomic_StoreInt32, logger_SetFlags, logger_SetPrefix,
        logger_SetOutput, bind, load; by rewrite Hl.
  - unfold logger_Clone, bind, load. by rewrite Hl.
  - intros F lv []; cbn [emit];
      unfold logger_Print, logger_Println, logger_Printf, atomic_LoadInt32,
        bind, load; by rewrite Hl.
Qed.

Lemma heap_ok_insert w l y :
  heap_ok w -> level_ok y -> heap_ok (set_heap (insert l y) w).
Proof.
  intros Hok Hy l' x'. cbn [set_heap heap]. rewrite lookup_insert.
  case_decide; [by intros [= <-]|apply Hok].
Qed.

(** X15.  Two constructions in a row return two different locations, both
    new to the heap, each holding what it was built with (the level narrowed
    to 32 bits, an empty buffer); the instances that existed before are
    untouched and no sink is written to. *)
Theorem New_allocates_apart w lv1 p1 o1 f1 lv2 p2 o2 f2 :
  exists a b w',
    (do a <- New lv1 p1 o1 f1; do b <- New lv2 p2 o2 f2; ret (a, b)) w
      = Ret (a, b) w' /\
    a <> b /\ heap w !! a = None /\ heap w !! b = None /\
    heap w' !! a = Some (mklogger (int32 lv1) p1 f1 o1 []) /\
    heap w' !! b = Some (mklogger (int32 lv2) p2 f2 o2 []) /\
    (forall l x, heap w !! l = Some x -> heap w' !! l = Some x) /\
    trace w' = trace w.
Proof.
  set (a := fresh (dom (heap w))).
  set (x1 := mklogger (int32 lv1) p1 f1 o1 []).
  set (b := fresh (dom (<[a := x1]> (heap w)))).
  assert (Ha : heap w !! a = None) by apply not_elem_of_dom, is_fresh.
  assert (Hb : <[a := x1]> (heap w) !! b = None) by apply not_elem_of_dom, is_fresh.
  assert (Hab : a <> b) by (intros E; rewrite <- E, lookup_insert_eq in Hb; done).
  rewrite lookup_insert_ne in Hb by done.
  exists a, b. eexists. split; [reflexivity|]. cbn [set_heap heap trace].
  repeat split; try done.
  - by rewrite lookup_insert_ne, lookup_insert_eq.
  - by rewrite lookup_insert_eq.
  - intros l x Hl.
    assert (a <> l) by (intros E; rewrite E, Hl in Ha; done).
    assert (b <> l) by (intros E; rewrite E, Hl in Hb; done).
    by rewrite !lookup_insert_ne.
Qed.

(** X16.  Once every stored level lies between [LevelQuiet] and
    [LevelTrace], it stays so: the four setters, the three emitters and
    [Clone] keep that invariant, and so does [New] when it is given a level
    in that range. *)
Theorem level_invariant_preserved w :
  heap_ok w ->
  (forall l op w', final (call l op w) = Some w' -> heap_ok w') /\
  (forall F l lv e w', final (@emit F l lv e w) = Some w' -> heap_ok w') /\
  (forall l w', final (logger_Clone l w) = Some w' -> heap_ok w') /\
  (forall lv p o f w',
     LevelQuiet <= lv <= LevelTrace ->
     final (New lv p o f w) = Some w' -> heap_ok w').
Proof.
  intros Hok. split; [|split; [|split]].
  - intros l op w' Hf. destruct (heap w !! l) as [x|] eqn:Hl.
    + rewrite (call_spec _ _ _ _ Hl) in Hf. injection Hf as <-.
      apply heap_ok_insert; [done|]. specialize (Hok l x Hl).
      destruct op; try exact Hok. apply clamped_level_ok.
    + by rewrite (proj1 (unallocated_panics l w Hl)) in Hf.
  - intros F l lv e w' Hf. destruct (heap w !! l) as [x|] eqn:Hl.
    + rewrite (final_emit _ _ _ _ _ Hl) in Hf. injection Hf as <-.
      destruct (gated x lv); [done|].
      apply (heap_ok_insert w l (with_buf _ x) Hok (Hok l x Hl)).
    + by rewrite (proj2 (proj2 (unallocated_panics l w Hl))) in Hf.
  - intros l w' Hf. destruct (heap w !! l) as [x|] eqn:Hl.
    + destruct (Clone_spec l x w Hl) as (c & _ & _ & E). rewrite E in Hf.
      injection Hf as <-. apply heap_ok_insert; [done|].
      pose proof (Hok l x Hl) as Hx. unfold level_ok, LevelQuiet, LevelTrace in *.
      cbn [level]. rewrite int32_id; [done|unfold is_int32; lia].
    + by rewrite (proj1 (proj2 (unallocated_panics l w Hl))) in Hf.
  - intros lv p o f w' Hlv [= <-]. apply heap_ok_insert; [done|].
    unfold level_ok, LevelQuiet, LevelTrace in *. cbn [level].
    rewrite int32_id; [done|unfold is_int32; lia].
Qed.

Lemma level_invariant_preserved_witness :
  exists w',
    final (logger_Clone 0%nat (world_of (app_logger LevelDebug 0) 0)) = Some w' /\
    heap_ok w'.
Proof.
  assert (Hok : heap_ok (world_of (app_logger LevelDebug 0) 0)).
  { intros l x Hl. cbn [world_of heap] in Hl.
    apply lookup_singleton_Some in Hl as [_ <-].
    unfold level_ok, app_logger, LevelQuiet, LevelDebug, LevelTrace. cbn [level]. lia. }
  eexists. split; [reflexivity|].
  apply (proj1 (proj2 (proj2
           (level_invariant_preserved (world_of (app_logger LevelDebug 0) 0) Hok)))
           0%nat).
  reflexivity.
Defined.

(** X17.  The two level tables have the same keys: a level has a letter
    exactly when it has a colour, and exactly when it lies between
    [LevelFatal] and [LevelTrace]; [LevelQuiet] and every level outside the
    package's own have neither. *)
Theorem level_tables_agree lv :
  (is_Some (levelPrefixes !! lv) <-> LevelFatal <= lv <= LevelTrace) /\
  (is_Some (levelColors !! lv) <-> LevelFatal <= lv <= LevelTrace).
Proof.
  destruct (level_tables lv) as [(Hin & ch & c & -> & -> & _)|(Hout & -> & ->)].
  - split; (split; [done|eauto]).
  - split; (split; [by intros [? ?]|done]).
Qed.

(** ** The default instance and the package-level functions *)

Lemma std_after_init t :
  heap (mkWorld {[ std := mklogger LevelWarn [] 0 os_Stderr [] ]} [] t []) !! std
  = Some (mklogger LevelWarn [] 0 os_Stderr []).
Proof. cbn [heap]. apply lookup_singleton_eq. Qed.

Lemma gated_warn lv :
  is_int32 lv -> gated (mklogger LevelWarn [] 0 os_Stderr []) lv = (LevelWarn <? lv).
Proof. intros Hlv. unfold gated. cbn [level]. by rewrite int32_id. Qed.

Section DefaultFacts.
Context {F : Fmt}.

(** X18.  Right after the package is initialised, the package-level [Print]
    and [Printf] write to standard error, with an empty prefix and no colour,
    the messages whose level is at most [LevelWarn], and write nothing for
    the levels above (requested levels that fit in 32 bits). *)
Theorem default_instance_at_startup t lv format v :
  is_int32 lv ->
  written ((do _ <- package_init; Print lv v) (boot t)) =
    (if lv <=? LevelWarn
     then [(2%nat, default [] (levelPrefixes !! lv) ++ ["/"%char] ++ clock_text t
                   ++ B " : " ++ Sprint v ++ line_break (Sprint v))]
     else []) /\
  written ((do _ <- package_init; Printf lv format v) (boot t)) =
    (if lv <=? LevelWarn
     then [(2%nat, default [] (levelPrefixes !! lv) ++ ["/"%char] ++ clock_text t
                   ++ B " : " ++ Sprintf format v
                   ++ line_break (Sprintf format v))]
     else []).
Proof.
  intros Hlv. unfold bind. rewrite package_init_std.
  pose proof (written_emit std _ lv (EmitPrint v) _ (std_after_init t)) as H1.
  pose proof (written_emit std _ lv (EmitPrintf format v) _ (std_after_init t)) as H2.
  cbn [emit body] in H1, H2. unfold Print, Printf. rewrite H1, H2.
  rewrite (gated_warn lv Hlv). cbn [trace now out wname os_Stderr app].
  change (mklogger LevelWarn [] 0 os_Stderr [])
    with (with_flags 0 (mklogger LevelWarn [] 0 os_Stderr [])).
  rewrite !render_plain. cbn [prefix with_flags].
  destruct (Z.ltb_spec LevelWarn lv), (Z.leb_spec lv LevelWarn); try lia; done.
Qed.

(** X19.  [GetDefault] hands out the instance the package-level functions
    use, [NewDefault] a copy of it: a level set on the first is the
    threshold of the package-level [Print], a level set on the second leaves
    that threshold at [LevelWarn]. *)
Theorem default_is_shared_clone_is_not t L lv v :
  LevelQuiet <= L <= LevelTrace ->
  is_int32 lv ->
  (written ((do _ <- package_init; do d <- GetDefault;
             do _ <- logger_SetLevel d L; Print lv v) (boot t)) <> []
   <-> lv <= L) /\
  (written ((do _ <- package_init; do c <- NewDefault;
             do _ <- logger_SetLevel c L; Print lv v) (boot t)) <> []
   <-> lv <= LevelWarn).
Proof.
  intros HL Hlv. unfold bind at 1 4. rewrite package_init_std.
  set (x0 := mklogger LevelWarn [] 0 os_Stderr []).
  set (w0 := mkWorld {[ std := x0 ]} [] t []).
  assert (H0 : heap w0 !! std = Some x0) by apply std_after_init.
  split.
  - unfold GetDefault, bind, ret.
    pose proof (call_spec std x0 (SetLevel L) w0 H0) as Hs. cbn [call] in Hs.
    rewrite Hs. unfold Print.
    pose proof (written_emit std _ lv (EmitPrint v)
                  (set_heap (insert std
                     (with_level (int32 (if L <? LevelQuiet then LevelQuiet
                                         else if L >? LevelTrace then LevelTrace
                                         else L)) x0)) w0)
                  ltac:(cbn [set_heap heap]; apply lookup_insert_eq)) as Hw.
    cbn [emit body] in Hw. rewrite Hw. unfold gated. cbn [level with_level trace set_heap w0].
    unfold LevelQuiet, LevelTrace in *.
    destruct (Z.ltb_spec L 0); [lia|]. destruct (Z.gtb_spec L 6); [lia|].
    rewrite (int32_id L), (int32_id lv) by (done || (unfold is_int32; lia)).
    destruct (Z.ltb_spec L lv); split; try lia; try done.
  - unfold NewDefault, bind.
    destruct (Clone_spec std x0 w0 H0) as (c & Hne & Hfresh & ->).
    set (y := mklogger (int32 (level x0)) (prefix x0) (flags x0) (out x0) []).
    pose proof (call_spec c y (SetLevel L) (set_heap (insert c y) w0)
                  ltac:(cbn [set_heap heap]; apply lookup_insert_eq)) as Hs.
    cbn [call] in Hs. rewrite Hs. unfold Print.
    match goal with
    | |- context [logger_Print std lv v ?w2] =>
        pose proof (written_emit std x0 lv (EmitPrint v) w2
                      ltac:(cbn [set_heap heap];
                            by rewrite !lookup_insert_ne) ) as Hw
    end.
    cbn [emit body] in Hw. rewrite Hw. unfold x0 at 1. rewrite (gated_warn lv Hlv).
    cbn [trace set_heap w0]. unfold LevelWarn.
    destruct (Z.ltb_spec 3 lv); split; try lia; try done.
Qed.

End DefaultFacts.

Lemma default_instance_at_startup_witness :
  written ((do _ <- package_init; @Print fmt_strings LevelError [B "no route"])
             (boot t_140509))
  = [(2%nat, B "E/14:05:09 : no route" ++ [newline])].
Proof.
  apply (@default_instance_at_startup fmt_strings t_140509 LevelError []
           [B "no route"]).
  done.
Defined.

Lemma default_is_shared_clone_is_not_witness :
  written ((do _ <- package_init; do c <- NewDefault;
            do _ <- logger_SetLevel c LevelTrace;
            @Print fmt_strings LevelDebug [B "x"]) (boot t_140509)) <> []
  <-> LevelDebug <= LevelWarn.
Proof.
  apply (@default_is_shared_clone_is_not fmt_strings t_140509 LevelTrace
           LevelDebug [B "x"]); done.
Defined.
